(** * btcrpcclient, chain.go: the typed futures of the chain RPCs

    A shallow embedding of [chain.go] (package [btcrpcclient]) together with
    the functions of other packages that its [Receive] methods call:
    [encoding/hex], [chaincfg/chainhash] and the part of [encoding/json] that
    decodes into the destination kinds the file uses.  Those packages are
    transcribed from their own sources (the Go standard library of the
    releases current with this file, and btcd); [wire.MsgBlock.Deserialize],
    [strconv.ParseFloat], the result structs of btcjson and the client's
    [sendCmd] are parameters of the development.

    Representation choices, as in the Go code:
    - a Go [[]byte] is a [list byte], a Go [string] is a [string] (a byte
      string); [string(res)] is [string_of_list_byte] and [[]byte(s)] is
      [list_byte_of_string];
    - a function returning [(T, error)] returns a pair [T * option error]
      whose second component is [None] for the nil error;
    - a pointer [*T] is [ptr T] with [None] for nil, a slice that may be nil is
      [slice T], a map that may be nil is [gomap T];
    - a call that may not return (a receive on a channel nobody sends on, a
      nil dereference) runs in the [go] monad. *)

From Stdlib Require Import ZArith NArith String Ascii List Lia.
From Stdlib Require Import Strings.Byte.
From Stdlib Require DecimalString DecimalPos DecimalFacts.
From stdpp Require Import base option list strings gmap.

Local Open Scope string_scope.
Local Open Scope list_scope.
Local Open Scope stdpp_scope.

(** ** Go values *)

Definition ptr (T : Type) : Type := option T.
Definition slice (T : Type) : Type := option (list T).
Definition gomap (T : Type) : Type := option (gmap string T).

#[global] Instance byte_inhabited : Inhabited byte := populate x00.

(** The error values that reach the callers of chain.go.  The first group is
    produced by the decoders, the second is delivered through a future. *)
Inductive error : Type :=
| SyntaxError                      (* *json.SyntaxError *)
| UnmarshalTypeError               (* *json.UnmarshalTypeError *)
| ErrLength                        (* hex.ErrLength *)
| InvalidByteError (b : byte)      (* hex.InvalidByteError *)
| ErrHashStrSize                   (* chainhash.ErrHashStrSize *)
| ErrClientShutdown                (* the client was shut down *)
| ErrClientDisconnect              (* the connection was lost *)
| RPCError (code : Z) (message : string)   (* reported by the server *)
| OtherError (message : string).   (* any other error value *)

(** Outcome of running a Go call: it returns, it panics, or it blocks
    forever. *)
Inductive go (A : Type) : Type :=
| Return (a : A)
| Panic
| Blocked.
Arguments Return {A} a.
Arguments Panic {A}.
Arguments Blocked {A}.

#[global] Instance go_ret : MRet go := fun A a => Return a.
#[global] Instance go_bind : MBind go := fun A B f m =>
  match m with
  | Return a => f a
  | Panic => Panic
  | Blocked => Blocked
  end.

(** ** encoding/hex *)
Module hex.

Definition hextable : list byte := list_byte_of_string "0123456789abcdef".

(** The byte [(a << 4) | b] of two nibbles. *)
Definition nibbles (a b : N) : byte :=
  default x00 (Byte.of_N (N.lor (N.shiftl a 4) b)).

Definition fromHexChar (c : byte) : option N :=
  let n := Byte.to_N c in
  if (48 <=? n)%N && (n <=? 57)%N then Some (n - 48)%N
  else if (97 <=? n)%N && (n <=? 102)%N then Some (n - 97 + 10)%N
  else if (65 <=? n)%N && (n <=? 70)%N then Some (n - 65 + 10)%N
  else None.

Definition DecodedLen (x : nat) : nat := x / 2.

(** The loop of [Decode]: pair [i] of [src] is written to [dst[i]]. *)
Fixpoint decodeLoop (i : nat) (src dst : list byte) : list byte * option error :=
  match src with
  | a :: b :: rest =>
      match fromHexChar a with
      | None => (dst, Some (InvalidByteError a))
      | Some x =>
          match fromHexChar b with
          | None => (dst, Some (InvalidByteError b))
          | Some y => decodeLoop (S i) rest (<[i := nibbles x y]> dst)
          end
      end
  | _ => (dst, None)
  end.

(** [Decode(dst, src)]: the contents of [dst] afterwards, the number of
    bytes written and the error.  The length is checked before any digit, as
    in the releases of that time (later ones report a bad digit first). *)
Definition Decode (dst src : list byte) : list byte * (nat * option error) :=
  if Nat.odd (length src) then (dst, (0, Some ErrLength))
  else
    match decodeLoop 0 src dst with
    | (dst', Some e) => (dst', (0, Some e))
    | (dst', None) => (dst', (length src / 2, None))
    end.

Definition DecodeString (s : string) : list byte * option error :=
  let src := list_byte_of_string s in
  let dst := replicate (DecodedLen (length src)) x00 in
  match Decode dst src with
  | (_, (_, Some e)) => ([], Some e)
  | (dst', (_, None)) => (dst', None)
  end.

Definition encodeByte (v : byte) : list byte :=
  let n := Byte.to_N v in
  [hextable !!! N.to_nat (N.shiftr n 4); hextable !!! N.to_nat (N.land n 15)].

Definition EncodeToString (src : list byte) : string :=
  string_of_list_byte (concat (map encodeByte src)).

End hex.

(** ** chaincfg/chainhash *)
Module chainhash.

Definition HashSize : nat := 32.
Definition MaxHashStringSize : nat := HashSize * 2.

(** [type Hash [HashSize]byte] *)
Definition Hash : Type := list byte.

(** [new(Hash)] *)
Definition newHash : Hash := replicate HashSize x00.

(** [a[i], a[j] = b[j], c] : both right-hand sides are read before the
    stores, which happen left to right. *)
Definition store2 (a : Hash) (i j : nat) (x y : byte) : Hash :=
  <[j := y]> (<[i := x]> a).

(** [for i, b := range reversedHash[:HashSize/2] {
       dst[i], dst[HashSize-1-i] = reversedHash[HashSize-1-i], b }] *)
Definition reverseCopy (dst reversedHash : Hash) : Hash :=
  foldl (fun d i =>
           store2 d i (HashSize - 1 - i)
                  (reversedHash !!! (HashSize - 1 - i)) (reversedHash !!! i))
        dst (seq 0 (HashSize / 2)).

Definition Decode (dst : Hash) (src : string) : Hash * option error :=
  if (MaxHashStringSize <? String.length src)%nat then (dst, Some ErrHashStrSize)
  else
    let srcBytes :=
      if Nat.even (String.length src) then list_byte_of_string src
      else "0"%byte :: list_byte_of_string src in
    let reversedHash := newHash in
    let k := HashSize - hex.DecodedLen (length srcBytes) in
    match hex.Decode (drop k reversedHash) srcBytes with
    | (_, (_, Some e)) => (dst, Some e)
    | (tl, (_, None)) =>
        let reversedHash := take k reversedHash ++ tl in
        (reverseCopy dst reversedHash, None)
    end.

Definition NewHashFromStr (hash : string) : ptr Hash * option error :=
  let ret := newHash in
  match Decode ret hash with
  | (_, Some e) => (None, Some e)
  | (ret', None) => (Some ret', None)
  end.

(** [func (hash Hash) String() string]: the hex of the byte-reversed hash. *)
Definition String (hash : Hash) : string :=
  let hash' :=
    foldl (fun h i =>
             store2 h i (HashSize - 1 - i)
                    (h !!! (HashSize - 1 - i)) (h !!! i))
          hash (seq 0 (HashSize / 2)) in
  hex.EncodeToString hash'.

End chainhash.

(** ** encoding/json

    [Unmarshal] first runs the scanner over the whole input ([checkValid]) and
    only then stores the value into the destination, directed by the
    destination's type.  The scanner below is the state machine of
    [scanner.go], one [step] per input byte, with the same state names; each
    entry of its [parseState] stack also carries the part of the enclosing
    array or object scanned so far, so that the run yields the value that the
    decoder then stores. *)
Module json.

#[local] Unset Elimination Schemes.
Inductive Value : Type :=
| Null
| Bool (b : bool)
| Number (lit : string)
| Str (s : string)
| Array (elems : list Value)
| Object (members : list (string * Value)).
#[local] Set Elimination Schemes.

(** *** Runes and string literals *)

Definition code (c : ascii) : N := N_of_ascii c.
Definition chr (n : N) : ascii := ascii_of_N n.

Definition between (lo hi : N) (c : ascii) : bool :=
  (lo <=? code c)%N && (code c <=? hi)%N.

Definition isSpace (c : ascii) : bool :=
  match c with
  | " "%char | "009"%char | "013"%char | "010"%char => true
  | _ => false
  end.

Definition isDigit : ascii -> bool := between 48 57.
Definition isDigit19 : ascii -> bool := between 49 57.

Definition hexDigit (c : ascii) : option N :=
  if between 48 57 c then Some (code c - 48)%N
  else if between 97 102 c then Some (code c - 97 + 10)%N
  else if between 65 70 c then Some (code c - 65 + 10)%N
  else None.

Definition isHex (c : ascii) : bool := bool_decide (is_Some (hexDigit c)).

(** [unicode.ReplacementChar], U+FFFD, in UTF-8. *)
Definition replacementChar : list ascii := [chr 239; chr 191; chr 189].

(** [utf8.EncodeRune] *)
Definition encodeRune (r : N) : list ascii :=
  let cont (x : N) := chr (N.lor 128 (N.land x 63)) in
  if (r <? 128)%N then [chr r]
  else if (r <? 2048)%N then [chr (N.lor 192 (N.shiftr r 6)); cont r]
  else if ((55296 <=? r)%N && (r <=? 57343)%N) || (1114111 <? r)%N
       then replacementChar
  else if (r <? 65536)%N
       then [chr (N.lor 224 (N.shiftr r 12)); cont (N.shiftr r 6); cont r]
  else [chr (N.lor 240 (N.shiftr r 18)); cont (N.shiftr r 12);
        cont (N.shiftr r 6); cont r].

(** [getu4] on the four characters that follow a backslash and a [u]. *)
Definition getu4 (a b c d : ascii) : option N :=
  match hexDigit a, hexDigit b, hexDigit c, hexDigit d with
  | Some x, Some y, Some z, Some w => Some (((x * 16 + y) * 16 + z) * 16 + w)%N
  | _, _, _, _ => None
  end.

(** [utf16.IsSurrogate] and [utf16.DecodeRune] *)
Definition isSurrogate (r : N) : bool := (55296 <=? r)%N && (r <? 57344)%N.

Definition decodeSurrogates (r1 r2 : N) : option N :=
  if (55296 <=? r1)%N && (r1 <? 56320)%N && (56320 <=? r2)%N && (r2 <? 57344)%N
  then Some (N.lor (N.shiftl (r1 - 55296) 10) (r2 - 56320) + 65536)%N
  else None.

(** The well-formed multi-byte sequences that [utf8.DecodeRune] accepts. *)
Definition isCont : ascii -> bool := between 128 191.

Definition valid2 (c c1 : ascii) : bool := between 194 223 c && isCont c1.

Definition valid3 (c c1 c2 : ascii) : bool :=
  ((between 224 224 c && between 160 191 c1)
   || (between 225 236 c && isCont c1)
   || (between 237 237 c && between 128 159 c1)
   || (between 238 239 c && isCont c1))
  && isCont c2.

Definition valid4 (c c1 c2 c3 : ascii) : bool :=
  ((between 240 240 c && between 144 191 c1)
   || (between 241 243 c && isCont c1)
   || (between 244 244 c && between 128 143 c1))
  && isCont c2 && isCont c3.

Definition unescape (c : ascii) : ascii :=
  match c with
  | "b"%char => "008"%char
  | "f"%char => "012"%char
  | "n"%char => "010"%char
  | "r"%char => "013"%char
  | "t"%char => "009"%char
  | _ => c   (* the quote, the backslash and the slash stand for themselves *)
  end.

(** [unquoteBytes] on the inside of a string literal that the scanner has
    accepted: escapes are replaced, a surrogate pair of [\u] escapes is joined,
    and bytes that are not well-formed UTF-8 become U+FFFD. *)
Fixpoint unquote (s : list ascii) : list ascii :=
  match s with
  | [] => []
  | "\"%char :: "u"%char :: a :: b :: c :: d :: rest =>
      match getu4 a b c d with
      | None => []
      | Some rr =>
          if isSurrogate rr then
            match rest with
            | "\"%char :: "u"%char :: a' :: b' :: c' :: d' :: rest' =>
                match getu4 a' b' c' d' ≫= decodeSurrogates rr with
                | Some dec => encodeRune dec ++ unquote rest'
                | None => replacementChar ++ unquote rest
                end
            | _ => replacementChar ++ unquote rest
            end
          else encodeRune rr ++ unquote rest
      end
  | "\"%char :: e :: rest => unescape e :: unquote rest
  | c :: rest =>
      if (code c <? 128)%N then c :: unquote rest
      else
        match rest with
        | c1 :: rest1 =>
            if valid2 c c1 then c :: c1 :: unquote rest1
            else
              match rest1 with
              | c2 :: rest2 =>
                  if valid3 c c1 c2 then c :: c1 :: c2 :: unquote rest2
                  else
                    match rest2 with
                    | c3 :: rest3 =>
                        if valid4 c c1 c2 c3
                        then c :: c1 :: c2 :: c3 :: unquote rest3
                        else replacementChar ++ unquote rest
                    | [] => replacementChar ++ unquote rest
                    end
              | [] => replacementChar ++ unquote rest
              end
        | [] => replacementChar ++ unquote rest
        end
  end.

Definition unquoteString (raw : list ascii) : string :=
  string_of_list_ascii (unquote raw).

(** *** The scanner *)

(** An entry of the parse stack: what is being scanned ([parseObjectKey],
    [parseObjectValue], [parseArrayValue] of scanner.go), with the members or
    elements completed so far, last first, and the current key. *)
Inductive frame : Type :=
| parseObjectKey (ms : list (string * Value)) (key : string)
| parseObjectValue (ms : list (string * Value)) (key : string)
| parseArrayValue (es : list Value).

Inductive state : Type :=
| stateBeginValue | stateBeginValueOrEmpty
| stateBeginStringOrEmpty | stateBeginString
| stateEndValue | stateEndTop
| stateInString | stateInStringEsc
| stateInStringEscU | stateInStringEscU1 | stateInStringEscU12
| stateInStringEscU123
| stateNeg | state1 | state0 | stateDot | stateDot0
| stateE | stateESign | stateE0
| stateT | stateTr | stateTru
| stateF | stateFa | stateFal | stateFals
| stateN | stateNu | stateNul
| stateError.

(** [tok] holds the bytes of the literal being scanned, last first; [top] is
    the completed top-level value. *)
Record scanner : Type := Scanner {
  step : state;
  parseState : list frame;
  tok : list ascii;
  top : option Value
}.

Definition reset : scanner := Scanner stateBeginValue [] [] None.

Definition scanError (s : scanner) : scanner :=
  Scanner stateError (parseState s) [] None.

Definition goto (st : state) (s : scanner) : scanner :=
  Scanner st (parseState s) (tok s) (top s).

(** Continue the literal with [c] in state [st]. *)
Definition shift (st : state) (c : ascii) (s : scanner) : scanner :=
  Scanner st (parseState s) (c :: tok s) (top s).

(** A value is complete: it becomes the top-level value, the next element of
    the enclosing array, the value of the current key, or the current key. *)
Definition emit (v : Value) (s : scanner) : scanner :=
  match parseState s with
  | [] => Scanner stateEndValue [] [] (Some v)
  | parseArrayValue es :: ps =>
      Scanner stateEndValue (parseArrayValue (v :: es) :: ps) [] None
  | parseObjectValue ms k :: ps =>
      Scanner stateEndValue (parseObjectValue ((k, v) :: ms) k :: ps) [] None
  | parseObjectKey ms _ :: ps =>
      match v with
      | Str k => Scanner stateEndValue (parseObjectKey ms k :: ps) [] None
      | _ => scanError s
      end
  end.

(** [popParseState], delivering the closed array or object. *)
Definition popParseState (v : Value) (ps : list frame) : scanner :=
  let s := emit v (Scanner stateEndValue ps [] None) in
  match ps with
  | [] => goto stateEndTop s
  | _ :: _ => s
  end.

Definition doEndTop (s : scanner) (c : ascii) : scanner :=
  if isSpace c then goto stateEndTop s else scanError s.

Definition doEndValue (s : scanner) (c : ascii) : scanner :=
  match parseState s with
  | [] => doEndTop s c
  | f :: ps =>
      if isSpace c then goto stateEndValue s
      else
        match f, c with
        | parseObjectKey ms k, ":"%char =>
            Scanner stateBeginValue (parseObjectValue ms k :: ps) [] None
        | parseObjectValue ms k, ","%char =>
            Scanner stateBeginString (parseObjectKey ms "" :: ps) [] None
        | parseObjectValue ms k, "}"%char => popParseState (Object (rev ms)) ps
        | parseArrayValue es, ","%char => goto stateBeginValue s
        | parseArrayValue es, "]"%char => popParseState (Array (rev es)) ps
        | _, _ => scanError s
        end
  end.

Definition doBeginValue (s : scanner) (c : ascii) : scanner :=
  if isSpace c then s
  else
    match c with
    | "{"%char =>
        Scanner stateBeginStringOrEmpty (parseObjectKey [] "" :: parseState s) [] None
    | "["%char =>
        Scanner stateBeginValueOrEmpty (parseArrayValue [] :: parseState s) [] None
    | "034"%char => goto stateInString s
    | "-"%char => shift stateNeg c s
    | "0"%char => shift state0 c s
    | "t"%char => goto stateT s
    | "f"%char => goto stateF s
    | "n"%char => goto stateN s
    | _ => if isDigit19 c then shift state1 c s else scanError s
    end.

Definition doBeginString (s : scanner) (c : ascii) : scanner :=
  if isSpace c then s
  else
    match c with
    | "034"%char => goto stateInString s
    | _ => scanError s
    end.

(** A numeric literal ends at [c], which is then read by [stateEndValue]. *)
Definition endNumber (s : scanner) (c : ascii) : scanner :=
  doEndValue (emit (Number (string_of_list_ascii (rev (tok s)))) s) c.

Definition do0 (s : scanner) (c : ascii) : scanner :=
  match c with
  | "."%char => shift stateDot c s
  | "e"%char | "E"%char => shift stateE c s
  | _ => endNumber s c
  end.

Definition doESign (s : scanner) (c : ascii) : scanner :=
  if isDigit c then shift stateE0 c s else scanError s.

(** In a keyword: [want] leads to [next]. *)
Definition expect (want c : ascii) (next : scanner) (s : scanner) : scanner :=
  if Ascii.eqb c want then next else scanError s.

(** One call of [s.step(s, c)]. *)
Definition scan (s : scanner) (c : ascii) : scanner :=
  match step s with
  | stateBeginValue => doBeginValue s c
  | stateBeginValueOrEmpty =>
      if isSpace c then s
      else if Ascii.eqb c "]" then doEndValue s c
      else doBeginValue s c
  | stateBeginStringOrEmpty =>
      if isSpace c then s
      else if Ascii.eqb c "}" then
        match parseState s with
        | parseObjectKey ms k :: ps =>
            doEndValue (Scanner (step s) (parseObjectValue ms k :: ps) [] None) c
        | _ => scanError s
        end
      else doBeginString s c
  | stateBeginString => doBeginString s c
  | stateEndValue => doEndValue s c
  | stateEndTop => doEndTop s c
  | stateInString =>
      match c with
      | "034"%char => emit (Str (unquoteString (rev (tok s)))) s
      | "\"%char => shift stateInStringEsc c s
      | _ => if (code c <? 32)%N then scanError s else shift stateInString c s
      end
  | stateInStringEsc =>
      match c with
      | "b"%char | "f"%char | "n"%char | "r"%char | "t"%char
      | "\"%char | "/"%char | "034"%char => shift stateInString c s
      | "u"%char => shift stateInStringEscU c s
      | _ => scanError s
      end
  | stateInStringEscU =>
      if isHex c then shift stateInStringEscU1 c s else scanError s
  | stateInStringEscU1 =>
      if isHex c then shift stateInStringEscU12 c s else scanError s
  | stateInStringEscU12 =>
      if isHex c then shift stateInStringEscU123 c s else scanError s
  | stateInStringEscU123 =>
      if isHex c then shift stateInString c s else scanError s
  | stateNeg =>
      if Ascii.eqb c "0" then shift state0 c s
      else if isDigit19 c then shift state1 c s
      else scanError s
  | state1 => if isDigit c then shift state1 c s else do0 s c
  | state0 => do0 s c
  | stateDot => if isDigit c then shift stateDot0 c s else scanError s
  | stateDot0 =>
      if isDigit c then shift stateDot0 c s
      else
        match c with
        | "e"%char | "E"%char => shift stateE c s
        | _ => endNumber s c
        end
  | stateE =>
      match c with
      | "+"%char | "-"%char => shift stateESign c s
      | _ => doESign s c
      end
  | stateESign => doESign s c
  | stateE0 => if isDigit c then shift stateE0 c s else endNumber s c
  | stateT => expect "r" c (goto stateTr s) s
  | stateTr => expect "u" c (goto stateTru s) s
  | stateTru => expect "e" c (emit (Bool true) s) s
  | stateF => expect "a" c (goto stateFa s) s
  | stateFa => expect "l" c (goto stateFal s) s
  | stateFal => expect "s" c (goto stateFals s) s
  | stateFals => expect "e" c (emit (Bool false) s) s
  | stateN => expect "u" c (goto stateNu s) s
  | stateNu => expect "l" c (goto stateNul s) s
  | stateNul => expect "l" c (emit Null s) s
  | stateError => s
  end.

(** [eof]: the input is valid when a top-level value is complete, possibly
    after the pending literal is ended as if by a space. *)
Definition eof (s : scanner) : option Value :=
  match step s, top s with
  | stateError, _ => None
  | _, Some v => Some v
  | _, None =>
      let s' := scan s " " in
      match step s' with
      | stateError => None
      | _ => top s'
      end
  end.

(** The value denoted by [data], or [None] where [checkValid] reports a
    [SyntaxError]. *)
Definition parse (data : list byte) : option Value :=
  eof (foldl scan reset (map ascii_of_byte data)).

(** *** strconv.ParseInt, base 10 *)

Fixpoint digitsValue (acc : Z) (s : list ascii) : option Z :=
  match s with
  | [] => Some acc
  | c :: r =>
      if isDigit c then digitsValue (acc * 10 + Z.of_N (code c - 48)) r
      else None
  end.

(** [None] stands for a syntax or range error. *)
Definition ParseInt (s : string) (bitSize : Z) : option Z :=
  let cs := list_ascii_of_string s in
  let '(neg, ds) :=
    match cs with
    | "-"%char :: r => (true, r)
    | "+"%char :: r => (false, r)
    | _ => (false, cs)
    end in
  match ds with
  | [] => None
  | _ :: _ =>
      n ← digitsValue 0 ds;
      let v := if neg : bool then (- n)%Z else n in
      if ((- 2 ^ (bitSize - 1) <=? v) && (v <? 2 ^ (bitSize - 1)))%Z
      then Some v else None
  end.

(** *** Storing a value into a destination

    A destination type has a zero value and a [store], the type-directed part
    of the decoder: [store j v] is the destination, holding [v] before, after
    the value [j] has been decoded into it, and the error that [Unmarshal]
    then returns.  As the decoder does, a JSON [null] leaves a destination
    that is no pointer, slice or map as it is and reports nothing, and a value
    of the wrong kind is an [UnmarshalTypeError].  What a destination holds
    after an error is not used by any caller in chain.go. *)
Class GoType (T : Type) : Type := {
  zero : T;
  store : Value -> T -> T * option error
}.

(** [d.saveError]: the first error is kept. *)
Definition saveError (saved new : option error) : option error :=
  match saved with
  | Some e => Some e
  | None => new
  end.

Definition typeError {T : Type} (v : T) : T * option error :=
  (v, Some UnmarshalTypeError).

#[global] Instance string_GoType : GoType string := {
  zero := "";
  store j v :=
    match j with
    | Null => (v, None)
    | Str s => (s, None)
    | _ => typeError v
    end
}.

#[global] Instance bool_GoType : GoType bool := {
  zero := false;
  store j v :=
    match j with
    | Null => (v, None)
    | Bool b => (b, None)
    | _ => typeError v
    end
}.

Definition int64 : Type := Z.

(** [reflect.Value.OverflowInt] for a destination of [bits] bits. *)
Definition OverflowInt (bits : Z) (n : Z) : bool :=
  negb ((- 2 ^ (bits - 1) <=? n) && (n <? 2 ^ (bits - 1)))%Z.

(** The signed integer kinds: [strconv.ParseInt(s, 10, 64)], then the
    overflow check for the destination's width. *)
Definition int_GoType (bits : Z) : GoType Z := {|
  zero := 0%Z;
  store j v :=
    match j with
    | Null => (v, None)
    | Number lit =>
        match ParseInt lit 64 with
        | Some n => if OverflowInt bits n then typeError v else (n, None)
        | None => typeError v
        end
    | _ => typeError v
    end
|}.

#[global] Instance int64_GoType : GoType int64 := int_GoType 64.

(** [float64], given [strconv.ParseFloat(s, 64)] ([None] for an error). *)
Definition float_GoType {float64 : Type} (float64_zero : float64)
    (ParseFloat : string -> option float64) : GoType float64 := {|
  zero := float64_zero;
  store j v :=
    match j with
    | Null => (v, None)
    | Number lit =>
        match ParseFloat lit with
        | Some f => (f, None)
        | None => typeError v
        end
    | _ => typeError v
    end
|}.

(** Elements of an array are decoded in order, each into the element the
    slice already has at that index, or into a zero element.  (A slice is
    its elements: capacity beyond the length is not modelled; every slice
    decoded into by chain.go starts nil.) *)
Fixpoint storeElems {T : Type} `{GoType T} (js : list Value) (old : list T)
    : list T * option error :=
  match js with
  | [] => ([], None)
  | j :: js' =>
      let '(x, e1) := store j (default zero (head old)) in
      let '(xs, e2) := storeElems js' (tail old) in
      (x :: xs, saveError e1 e2)
  end.

#[global] Instance slice_GoType {T : Type} `{GoType T} : GoType (slice T) := {
  zero := None;
  store j v :=
    match j with
    | Null => (None, None)
    | Array js =>
        let '(xs, e) := storeElems js (default [] v) in (Some xs, e)
    | _ => typeError v
    end
}.

(** A pointer is set to nil by [null]; otherwise the value is decoded into
    what it points to, allocated first if the pointer is nil. *)
#[global] Instance ptr_GoType {T : Type} `{GoType T} : GoType (ptr T) := {
  zero := None;
  store j v :=
    match j with
    | Null => (None, None)
    | _ => let '(x, e) := store j (default zero v) in (Some x, e)
    end
}.

(** Each member of an object is decoded into a zero element, which is then
    put into the map under the member's key. *)
Fixpoint storeMembers {T : Type} `{GoType T} (ms : list (string * Value))
    (m : gmap string T) : gmap string T * option error :=
  match ms with
  | [] => (m, None)
  | (k, j) :: ms' =>
      let '(x, e1) := store j zero in
      let '(m', e2) := storeMembers ms' (<[k := x]> m) in
      (m', saveError e1 e2)
  end.

#[global] Instance gomap_GoType {T : Type} `{GoType T} : GoType (gomap T) := {
  zero := None;
  store j v :=
    match j with
    | Null => (None, None)
    | Object ms =>
        let '(m, e) := storeMembers ms (default ∅ v) in (Some m, e)
    | _ => typeError v
    end
}.

(** A struct type as the decoder sees it: the zero value, and for an object
    key the field that the key selects (by its name, exactly or up to case),
    given as the store into that field of a struct value; [None] when the key
    selects no field, and the member is then skipped. *)
Record StructType : Type := {
  carrier : Type;
  struct_zero : carrier;
  struct_field : string -> option (Value -> carrier -> carrier * option error)
}.

Fixpoint storeFields (S : StructType) (ms : list (string * Value))
    (v : carrier S) : carrier S * option error :=
  match ms with
  | [] => (v, None)
  | (k, j) :: ms' =>
      let '(v1, e1) :=
        match struct_field S k with
        | Some f => f j v
        | None => (v, None)
        end in
      let '(v2, e2) := storeFields S ms' v1 in
      (v2, saveError e1 e2)
  end.

#[global] Instance struct_GoType (S : StructType) : GoType (carrier S) := {
  zero := struct_zero S;
  store j v :=
    match j with
    | Null => (v, None)
    | Object ms => storeFields S ms v
    | _ => typeError v
    end
}.

(** *** Fields of a struct

    A key selects the field whose name equals it, and failing that the first
    field whose name equals it under Unicode case folding.  For the ASCII
    names of the structs here, folding identifies the two cases of a letter,
    the Kelvin sign (U+212A) with [k], and the long s (U+017F) with [s]. *)
Definition lower (c : ascii) : ascii :=
  if between 65 90 c then chr (code c + 32) else c.

Fixpoint equalFold (name key : list ascii) : bool :=
  match name, key with
  | [], [] => true
  | n :: name', k :: key' =>
      if (code k <? 128)%N
      then Ascii.eqb (lower n) (lower k) && equalFold name' key'
      else
        match key' with
        | k1 :: k2 :: key'' =>
            if N.eqb (code k) 226 && N.eqb (code k1) 132 && N.eqb (code k2) 170
            then Ascii.eqb (lower n) "k" && equalFold name' key''
            else if N.eqb (code k) 197 && N.eqb (code k1) 191
            then Ascii.eqb (lower n) "s" && equalFold name' (k2 :: key'')
            else false
        | [k1] =>
            N.eqb (code k) 197 && N.eqb (code k1) 191
            && Ascii.eqb (lower n) "s" && equalFold name' []
        | [] => false
        end
  | _, _ => false
  end.

Definition selectField {F : Type} (fields : list (string * F)) (key : string)
    : option F :=
  match List.find (fun f => String.eqb (fst f) key) fields with
  | Some f => Some (snd f)
  | None =>
      snd <$> List.find
        (fun f => equalFold (list_ascii_of_string (fst f))
                            (list_ascii_of_string key)) fields
  end.

(** The store into the field read by [get] and written by [set]. *)
Definition fieldStore {S T : Type} (I : GoType T) (get : S -> T)
    (set : T -> S -> S) : Value -> S -> S * option error :=
  fun j v => let '(x, e) := store j (get v) in (set x v, e).

(** [json.Unmarshal(data, &v)]: the destination afterwards and the error. *)
Definition Unmarshal {T : Type} `{GoType T} (data : list byte) (v : T)
    : T * option error :=
  match parse data with
  | None => (v, Some SyntaxError)
  | Some j => store j v
  end.

End json.

(** ** btcjson: the commands chain.go builds *)
Module btcjson.

Definition int32 : Type := Z.
Definition uint32 : Type := Z.

(** The command structs, with the fields their constructors set. *)
Inductive Cmd : Type :=
| GetBestBlockHashCmd
| GetBlockCmd (Hash : string) (Verbose VerboseTx : ptr bool)
| GetBlockCountCmd
| GetDifficultyCmd
| GetBlockHashCmd (Index : json.int64)
| GetRawMempoolCmd (Verbose : ptr bool)
| VerifyChainCmd (CheckLevel CheckDepth : ptr int32)
| GetTxOutCmd (Txid : string) (Vout : uint32) (IncludeMempool : ptr bool).

Definition NewGetBestBlockHashCmd : Cmd := GetBestBlockHashCmd.
Definition NewGetBlockCmd (hash : string) (verbose verboseTx : ptr bool) : Cmd :=
  GetBlockCmd hash verbose verboseTx.
Definition NewGetBlockCountCmd : Cmd := GetBlockCountCmd.
Definition NewGetDifficultyCmd : Cmd := GetDifficultyCmd.
Definition NewGetBlockHashCmd (index : json.int64) : Cmd := GetBlockHashCmd index.
Definition NewGetRawMempoolCmd (verbose : ptr bool) : Cmd := GetRawMempoolCmd verbose.
Definition NewVerifyChainCmd (checkLevel checkDepth : ptr int32) : Cmd :=
  VerifyChainCmd checkLevel checkDepth.
Definition NewGetTxOutCmd (txHash : string) (index : uint32)
    (includeMempool : ptr bool) : Cmd :=
  GetTxOutCmd txHash index includeMempool.

(** [btcjson.Bool(b)]: a pointer to a fresh bool holding [b]. *)
Definition Bool (b : bool) : ptr bool := Some b.

(** *** The result of gettxout

    [GetTxOutResult] and [ScriptPubKeyResult] as btcjson declares them, with
    the JSON names of their fields. *)
Section Results.

Variable float64 : Type.
Variable float64_zero : float64.
Variable ParseFloat : string -> option float64.

Record ScriptPubKeyResult : Type := {
  Asm : string;
  Hex : string;
  ReqSigs : int32;
  Type_ : string;
  Addresses : slice string
}.

Record GetTxOutResult : Type := {
  BestBlock : string;
  Confirmations : json.int64;
  Value : float64;
  ScriptPubKey : ScriptPubKeyResult;
  Version : int32;
  Coinbase : bool
}.

Definition ScriptPubKeyResult_fields
    : list (string * (json.Value -> ScriptPubKeyResult -> ScriptPubKeyResult * option error)) :=
  [ ("asm", json.fieldStore json.string_GoType Asm
       (fun x v => {| Asm := x; Hex := Hex v; ReqSigs := ReqSigs v;
                      Type_ := Type_ v; Addresses := Addresses v |}));
    ("hex", json.fieldStore json.string_GoType Hex
       (fun x v => {| Asm := Asm v; Hex := x; ReqSigs := ReqSigs v;
                      Type_ := Type_ v; Addresses := Addresses v |}));
    ("reqSigs", json.fieldStore (json.int_GoType 32) ReqSigs
       (fun x v => {| Asm := Asm v; Hex := Hex v; ReqSigs := x;
                      Type_ := Type_ v; Addresses := Addresses v |}));
    ("type", json.fieldStore json.string_GoType Type_
       (fun x v => {| Asm := Asm v; Hex := Hex v; ReqSigs := ReqSigs v;
                      Type_ := x; Addresses := Addresses v |}));
    ("addresses", json.fieldStore (json.slice_GoType (T := string)) Addresses
       (fun x v => {| Asm := Asm v; Hex := Hex v; ReqSigs := ReqSigs v;
                      Type_ := Type_ v; Addresses := x |})) ].

Definition ScriptPubKeyResultT : json.StructType := {|
  json.carrier := ScriptPubKeyResult;
  json.struct_zero :=
    {| Asm := ""; Hex := ""; ReqSigs := 0%Z; Type_ := ""; Addresses := None |};
  json.struct_field := json.selectField ScriptPubKeyResult_fields
|}.

Definition GetTxOutResult_fields
    : list (string * (json.Value -> GetTxOutResult -> GetTxOutResult * option error)) :=
  [ ("bestblock", json.fieldStore json.string_GoType BestBlock
       (fun x v => {| BestBlock := x; Confirmations := Confirmations v;
                      Value := Value v; ScriptPubKey := ScriptPubKey v;
                      Version := Version v; Coinbase := Coinbase v |}));
    ("confirmations", json.fieldStore json.int64_GoType Confirmations
       (fun x v => {| BestBlock := BestBlock v; Confirmations := x;
                      Value := Value v; ScriptPubKey := ScriptPubKey v;
                      Version := Version v; Coinbase := Coinbase v |}));
    ("value", json.fieldStore (json.float_GoType float64_zero ParseFloat) Value
       (fun x v => {| BestBlock := BestBlock v; Confirmations := Confirmations v;
                      Value := x; ScriptPubKey := ScriptPubKey v;
                      Version := Version v; Coinbase := Coinbase v |}));
    ("scriptPubKey", json.fieldStore (json.struct_GoType ScriptPubKeyResultT) ScriptPubKey
       (fun x v => {| BestBlock := BestBlock v; Confirmations := Confirmations v;
                      Value := Value v; ScriptPubKey := x;
                      Version := Version v; Coinbase := Coinbase v |}));
    ("version", json.fieldStore (json.int_GoType 32) Version
       (fun x v => {| BestBlock := BestBlock v; Confirmations := Confirmations v;
                      Value := Value v; ScriptPubKey := ScriptPubKey v;
                      Version := x; Coinbase := Coinbase v |}));
    ("coinbase", json.fieldStore json.bool_GoType Coinbase
       (fun x v => {| BestBlock := BestBlock v; Confirmations := Confirmations v;
                      Value := Value v; ScriptPubKey := ScriptPubKey v;
                      Version := Version v; Coinbase := x |})) ].

Definition GetTxOutResultT : json.StructType := {|
  json.carrier := GetTxOutResult;
  json.struct_zero :=
    {| BestBlock := ""; Confirmations := 0%Z; Value := float64_zero;
       ScriptPubKey := json.struct_zero ScriptPubKeyResultT;
       Version := 0%Z; Coinbase := false |};
  json.struct_field := json.selectField GetTxOutResult_fields
|}.

End Results.

End btcjson.

(** ** Futures *)

(** [type response struct { result []byte; err error }] *)
Record response : Type := Response {
  result : list byte;
  err : option error
}.

(** A future is a [chan *response] on which at most one response is ever
    sent.  It is modelled by what a receive on it yields: the response sent on
    it, or [None] when none ever is. *)
Definition Future : Type := option response.

(** Modelled from the spec: [receiveFuture] of the client's infrastructure
    file, the blocking [receive() -> (payload, error)] of a future handle: it
    suspends the caller until the handle has been filled and then returns the
    stored payload and error. *)
Definition receiveFuture (f : Future) : go (list byte * option error) :=
  match f with
  | None => Blocked
  | Some r => Return (result r, err r)
  end.

(** ** chain.go *)
Section Chain.

(** [float64] and [strconv.ParseFloat(s, 64)], [None] for an error. *)
Variable float64 : Type.
Variable float64_zero : float64.
Variable ParseFloat : string -> option float64.

(** [wire.MsgBlock], its zero value, and [msgBlock.Deserialize(r)] on a reader
    over the given bytes: the block afterwards and the error. *)
Variable MsgBlock : Type.
Variable MsgBlock_zero : MsgBlock.
Variable Deserialize : MsgBlock -> list byte -> MsgBlock * option error.

(** The result structs of btcjson that [json.Unmarshal] fills. *)
Variable GetBlockVerboseResult : json.StructType.
Variable GetRawMempoolVerboseResult : json.StructType.
Variable GetTxOutResult : json.StructType.

(** The client and [c.sendCmd(cmd)], which sends the command and returns the
    channel on which the response will be delivered. *)
Variable Client : Type.
Variable sendCmd : Client -> btcjson.Cmd -> Future.

#[local] Instance float64_GoType : json.GoType float64 :=
  json.float_GoType float64_zero ParseFloat.

(** [btcutil.Block] as [btcutil.NewBlock] leaves it: the block and an unknown
    height, every other field zero. *)
Record Block : Type := { msgBlock : MsgBlock; blockHeight : Z }.

Definition BlockHeightUnknown : Z := (-1)%Z.

Definition NewBlock (msgBlock : MsgBlock) : Block :=
  {| msgBlock := msgBlock; blockHeight := BlockHeightUnknown |}.

(** [h.String()] through a pointer: a nil pointer is dereferenced. *)
Definition Hash_String (h : ptr chainhash.Hash) : go string :=
  match h with
  | None => Panic
  | Some hash => Return (chainhash.String hash)
  end.

(** *** GetBestBlockHash *)

Definition FutureGetBestBlockHashResult_Receive (r : Future)
    : go (ptr chainhash.Hash * option error) :=
  '(res, err) ← receiveFuture r;
  if err is Some e then Return (None, Some e) else
  (* Unmarshal result as a string. *)
  let '(txHashStr, err) := json.Unmarshal res (json.zero : string) in
  if err is Some e then Return (None, Some e) else
  Return (chainhash.NewHashFromStr txHashStr).

Definition GetBestBlockHashAsync (c : Client) : go Future :=
  let cmd := btcjson.NewGetBestBlockHashCmd in
  Return (sendCmd c cmd).

Definition GetBestBlockHash (c : Client) : go (ptr chainhash.Hash * option error) :=
  GetBestBlockHashAsync c ≫= FutureGetBestBlockHashResult_Receive.

(** *** GetBlock *)

Definition FutureGetBlockResult_Receive (r : Future) : go (ptr Block * option error) :=
  '(res, err) ← receiveFuture r;
  if err is Some e then Return (None, Some e) else
  (* Unmarshal result as a string. *)
  let '(blockHex, err) := json.Unmarshal res (json.zero : string) in
  if err is Some e then Return (None, Some e) else
  (* Decode the serialized block hex to raw bytes. *)
  let '(serializedBlock, err) := hex.DecodeString blockHex in
  if err is Some e then Return (None, Some e) else
  (* Deserialize the block and return it. *)
  let '(msgBlock, err) := Deserialize MsgBlock_zero serializedBlock in
  if err is Some e then Return (None, Some e) else
  Return (Some (NewBlock msgBlock), None).

Definition GetBlockAsync (c : Client) (blockHash : ptr chainhash.Hash) : go Future :=
  hash ← (if decide (is_Some blockHash) then Hash_String blockHash else Return "");
  let cmd := btcjson.NewGetBlockCmd hash (btcjson.Bool false) None in
  Return (sendCmd c cmd).

Definition GetBlock (c : Client) (blockHash : ptr chainhash.Hash)
    : go (ptr Block * option error) :=
  GetBlockAsync c blockHash ≫= FutureGetBlockResult_Receive.

(** *** GetBlockVerbose *)

Definition FutureGetBlockVerboseResult_Receive (r : Future)
    : go (ptr (json.carrier GetBlockVerboseResult) * option error) :=
  '(res, err) ← receiveFuture r;
  if err is Some e then Return (None, Some e) else
  (* Unmarshal the raw result into a BlockResult. *)
  let '(blockResult, err) :=
    json.Unmarshal res (json.zero : json.carrier GetBlockVerboseResult) in
  if err is Some e then Return (None, Some e) else
  Return (Some blockResult, None).

Definition GetBlockVerboseAsync (c : Client) (blockHash : ptr chainhash.Hash)
    (verboseTx : bool) : go Future :=
  hash ← (if decide (is_Some blockHash) then Hash_String blockHash else Return "");
  let cmd := btcjson.NewGetBlockCmd hash (btcjson.Bool true) (Some verboseTx) in
  Return (sendCmd c cmd).

Definition GetBlockVerbose (c : Client) (blockHash : ptr chainhash.Hash)
    (verboseTx : bool)
    : go (ptr (json.carrier GetBlockVerboseResult) * option error) :=
  GetBlockVerboseAsync c blockHash verboseTx ≫= FutureGetBlockVerboseResult_Receive.

(** *** GetBlockCount *)

Definition FutureGetBlockCountResult_Receive (r : Future)
    : go (json.int64 * option error) :=
  '(res, err) ← receiveFuture r;
  if err is Some e then Return (0%Z, Some e) else
  (* Unmarshal the result as an int64. *)
  let '(count, err) := json.Unmarshal res (json.zero : json.int64) in
  if err is Some e then Return (0%Z, Some e) else
  Return (count, None).

Definition GetBlockCountAsync (c : Client) : go Future :=
  let cmd := btcjson.NewGetBlockCountCmd in
  Return (sendCmd c cmd).

Definition GetBlockCount (c : Client) : go (json.int64 * option error) :=
  GetBlockCountAsync c ≫= FutureGetBlockCountResult_Receive.

(** *** GetDifficulty *)

Definition FutureGetDifficultyResult_Receive (r : Future)
    : go (float64 * option error) :=
  '(res, err) ← receiveFuture r;
  if err is Some e then Return (float64_zero, Some e) else
  (* Unmarshal the result as a float64. *)
  let '(difficulty, err) := json.Unmarshal res (json.zero : float64) in
  if err is Some e then Return (float64_zero, Some e) else
  Return (difficulty, None).

Definition GetDifficultyAsync (c : Client) : go Future :=
  let cmd := btcjson.NewGetDifficultyCmd in
  Return (sendCmd c cmd).

Definition GetDifficulty (c : Client) : go (float64 * option error) :=
  GetDifficultyAsync c ≫= FutureGetDifficultyResult_Receive.

(** *** GetBlockHash *)

Definition FutureGetBlockHashResult_Receive (r : Future)
    : go (ptr chainhash.Hash * option error) :=
  '(res, err) ← receiveFuture r;
  if err is Some e then Return (None, Some e) else
  (* Unmarshal the result as a string-encoded sha. *)
  let '(txHashStr, err) := json.Unmarshal res (json.zero : string) in
  if err is Some e then Return (None, Some e) else
  Return (chainhash.NewHashFromStr txHashStr).

Definition GetBlockHashAsync (c : Client) (blockHeight : json.int64) : go Future :=
  let cmd := btcjson.NewGetBlockHashCmd blockHeight in
  Return (sendCmd c cmd).

Definition GetBlockHash (c : Client) (blockHeight : json.int64)
    : go (ptr chainhash.Hash * option error) :=
  GetBlockHashAsync c blockHeight ≫= FutureGetBlockHashResult_Receive.

(** *** GetRawMempool *)

(** The loop over [txHashStrs], [txHashes] holding the hashes appended so
    far: it returns from [Receive] at the first string that is no hash. *)
Fixpoint hashesLoop (txHashStrs : list string) (txHashes : list (ptr chainhash.Hash))
    : slice (ptr chainhash.Hash) * option error :=
  match txHashStrs with
  | [] => (Some txHashes, None)
  | hashStr :: rest =>
      let '(txHash, err) := chainhash.NewHashFromStr hashStr in
      if err is Some e then (None, Some e) else
      hashesLoop rest (txHashes ++ [txHash])
  end.

Definition FutureGetRawMempoolResult_Receive (r : Future)
    : go (slice (ptr chainhash.Hash) * option error) :=
  '(res, err) ← receiveFuture r;
  if err is Some e then Return (None, Some e) else
  (* Unmarshal the result as an array of strings. *)
  let '(txHashStrs, err) := json.Unmarshal res (json.zero : slice string) in
  if err is Some e then Return (None, Some e) else
  (* Create a slice of ShaHash arrays from the string slice. *)
  Return (hashesLoop (default [] txHashStrs) []).

Definition GetRawMempoolAsync (c : Client) : go Future :=
  let cmd := btcjson.NewGetRawMempoolCmd (btcjson.Bool false) in
  Return (sendCmd c cmd).

Definition GetRawMempool (c : Client)
    : go (slice (ptr chainhash.Hash) * option error) :=
  GetRawMempoolAsync c ≫= FutureGetRawMempoolResult_Receive.

(** *** GetRawMempoolVerbose *)

Definition FutureGetRawMempoolVerboseResult_Receive (r : Future)
    : go (gomap (json.carrier GetRawMempoolVerboseResult) * option error) :=
  '(res, err) ← receiveFuture r;
  if err is Some e then Return (None, Some e) else
  (* Unmarshal the result as a map of strings (tx shas) to their detailed
     results. *)
  let '(mempoolItems, err) :=
    json.Unmarshal res (json.zero : gomap (json.carrier GetRawMempoolVerboseResult)) in
  if err is Some e then Return (None, Some e) else
  Return (mempoolItems, None).

Definition GetRawMempoolVerboseAsync (c : Client) : go Future :=
  let cmd := btcjson.NewGetRawMempoolCmd (btcjson.Bool true) in
  Return (sendCmd c cmd).

Definition GetRawMempoolVerbose (c : Client)
    : go (gomap (json.carrier GetRawMempoolVerboseResult) * option error) :=
  GetRawMempoolVerboseAsync c ≫= FutureGetRawMempoolVerboseResult_Receive.

(** *** VerifyChain, VerifyChainLevel, VerifyChainBlocks *)

Definition FutureVerifyChainResult_Receive (r : Future) : go (bool * option error) :=
  '(res, err) ← receiveFuture r;
  if err is Some e then Return (false, Some e) else
  (* Unmarshal the result as a boolean. *)
  let '(verified, err) := json.Unmarshal res (json.zero : bool) in
  if err is Some e then Return (false, Some e) else
  Return (verified, None).

Definition VerifyChainAsync (c : Client) : go Future :=
  let cmd := btcjson.NewVerifyChainCmd None None in
  Return (sendCmd c cmd).

Definition VerifyChain (c : Client) : go (bool * option error) :=
  VerifyChainAsync c ≫= FutureVerifyChainResult_Receive.

Definition VerifyChainLevelAsync (c : Client) (checkLevel : btcjson.int32) : go Future :=
  let cmd := btcjson.NewVerifyChainCmd (Some checkLevel) None in
  Return (sendCmd c cmd).

Definition VerifyChainLevel (c : Client) (checkLevel : btcjson.int32)
    : go (bool * option error) :=
  VerifyChainLevelAsync c checkLevel ≫= FutureVerifyChainResult_Receive.

Definition VerifyChainBlocksAsync (c : Client) (checkLevel numBlocks : btcjson.int32)
    : go Future :=
  let cmd := btcjson.NewVerifyChainCmd (Some checkLevel) (Some numBlocks) in
  Return (sendCmd c cmd).

Definition VerifyChainBlocks (c : Client) (checkLevel numBlocks : btcjson.int32)
    : go (bool * option error) :=
  VerifyChainBlocksAsync c checkLevel numBlocks ≫= FutureVerifyChainResult_Receive.

(** *** GetTxOut *)

Definition FutureGetTxOutResult_Receive (r : Future)
    : go (ptr (json.carrier GetTxOutResult) * option error) :=
  '(res, err) ← receiveFuture r;
  if err is Some e then Return (None, Some e) else
  (* take care of the special case where the output has been spent already
     it should return the string "null" *)
  if decide (string_of_list_byte res = "null") then Return (None, None) else
  (* Unmarshal result as an gettxout result object. *)
  let '(txOutInfo, err) :=
    json.Unmarshal res (None : ptr (json.carrier GetTxOutResult)) in
  if err is Some e then Return (None, Some e) else
  Return (txOutInfo, None).

Definition GetTxOutAsync (c : Client) (txHash : ptr chainhash.Hash)
    (index : btcjson.uint32) (mempool : bool) : go Future :=
  hash ← (if decide (is_Some txHash) then Hash_String txHash else Return "");
  let cmd := btcjson.NewGetTxOutCmd hash index (Some mempool) in
  Return (sendCmd c cmd).

Definition GetTxOut (c : Client) (txHash : ptr chainhash.Hash)
    (index : btcjson.uint32) (mempool : bool)
    : go (ptr (json.carrier GetTxOutResult) * option error) :=
  GetTxOutAsync c txHash index mempool ≫= FutureGetTxOutResult_Receive.

End Chain.

Arguments Block MsgBlock : clear implicits.
Arguments NewBlock {MsgBlock} msgBlock.
Arguments FutureGetBlockResult_Receive {MsgBlock} MsgBlock_zero Deserialize r.
Arguments FutureGetDifficultyResult_Receive {float64} float64_zero ParseFloat r.
Arguments GetBestBlockHashAsync {Client} sendCmd c.
Arguments GetBestBlockHash {Client} sendCmd c.
Arguments GetBlockAsync {Client} sendCmd c blockHash.
Arguments GetBlock {MsgBlock} MsgBlock_zero Deserialize {Client} sendCmd c blockHash.
Arguments GetBlockVerboseAsync {Client} sendCmd c blockHash verboseTx.
Arguments GetBlockVerbose GetBlockVerboseResult {Client} sendCmd c blockHash verboseTx.
Arguments GetBlockCountAsync {Client} sendCmd c.
Arguments GetBlockCount {Client} sendCmd c.
Arguments GetDifficultyAsync {Client} sendCmd c.
Arguments GetDifficulty {float64} float64_zero ParseFloat {Client} sendCmd c.
Arguments GetBlockHashAsync {Client} sendCmd c blockHeight.
Arguments GetBlockHash {Client} sendCmd c blockHeight.
Arguments GetRawMempoolAsync {Client} sendCmd c.
Arguments GetRawMempool {Client} sendCmd c.
Arguments GetRawMempoolVerboseAsync {Client} sendCmd c.
Arguments GetRawMempoolVerbose GetRawMempoolVerboseResult {Client} sendCmd c.
Arguments VerifyChainAsync {Client} sendCmd c.
Arguments VerifyChain {Client} sendCmd c.
Arguments VerifyChainLevelAsync {Client} sendCmd c checkLevel.
Arguments VerifyChainLevel {Client} sendCmd c checkLevel.
Arguments VerifyChainBlocksAsync {Client} sendCmd c checkLevel numBlocks.
Arguments VerifyChainBlocks {Client} sendCmd c checkLevel numBlocks.
Arguments GetTxOutAsync {Client} sendCmd c txHash index mempool.
Arguments GetTxOut GetTxOutResult {Client} sendCmd c txHash index mempool.

(** ** The dispatch engine

    Modelled from the spec: the dispatcher, completion router and future
    handles of the client's infrastructure file, which chain.go only calls
    ([sendCmd], [receiveFuture]).  The pending table maps the correlation id
    of each request in flight to its future handle; a handle is empty until
    it is filled, and is filled at most once. *)
Module dispatch.

(** A handle is a position in the store of all handles created so far. *)
Record State : Type := {
  nextID : N;
  pending : gmap N nat;
  handles : list Future
}.

Definition init : State := {| nextID := 0; pending := ∅; handles := [] |}.

(** [fill(payload, error)]: an empty handle takes the response; a second fill
    is ignored. *)
Definition fill (h : nat) (r : response) (hs : list Future) : list Future :=
  match hs !! h with
  | Some None => <[h := Some r]> hs
  | _ => hs
  end.

(** [dispatch(request) -> handle].  The request gets a fresh correlation id
    and a fresh empty handle, registered in the pending table; when sending
    fails at once with [sendErr], the handle is filled with that error
    instead and nothing stays pending. *)
Definition dispatch (sendErr : option error) (st : State) : State * nat :=
  let id := nextID st in
  let h := length (handles st) in
  match sendErr with
  | Some e =>
      ({| nextID := N.succ id; pending := pending st;
          handles := handles st ++ [Some (Response [] (Some e))] |}, h)
  | None =>
      ({| nextID := N.succ id; pending := <[id := h]> (pending st);
          handles := handles st ++ [None] |}, h)
  end.

(** [onReply(correlationId, rawPayload, serverError)]: the entry is looked up
    and removed and its handle filled; a reply for an unknown id is
    discarded. *)
Definition onReply (id : N) (r : response) (st : State) : State :=
  match pending st !! id with
  | None => st
  | Some h =>
      {| nextID := nextID st; pending := delete id (pending st);
         handles := fill h r (handles st) |}
  end.

Definition connectionClosed : response := Response [] (Some ErrClientShutdown).

(** One step of the teardown sweep: some pending entry is resolved with the
    connection error. *)
Definition sweepOne (st : State) : option State :=
  match map_to_list (pending st) with
  | [] => None
  | (id, _) :: _ => Some (onReply id connectionClosed st)
  end.

Fixpoint sweep (n : nat) (st : State) : State :=
  match n with
  | O => st
  | S n' =>
      match sweepOne st with
      | None => st
      | Some st' => sweep n' st'
      end
  end.

(** The shutdown notification: as many sweep steps as there are pending
    entries. *)
Definition onShutdown (st : State) : State := sweep (size (pending st)) st.

(** The future of handle [h] in state [st], and [handle.receive()]. *)
Definition future (h : nat) (st : State) : Future := mjoin (handles st !! h).

Definition receive (h : nat) (st : State) : go (list byte * option error) :=
  receiveFuture (future h st).

(** What happens to the engine, and the states it can be in. *)
Inductive event : Type :=
| Dispatch (sendErr : option error)
| Reply (id : N) (r : response)
| Shutdown.

Definition step (st : State) (ev : event) : State :=
  match ev with
  | Dispatch sendErr => fst (dispatch sendErr st)
  | Reply id r => onReply id r st
  | Shutdown => onShutdown st
  end.

Definition run (evs : list event) : State := foldl step init evs.

(** The handles issued in a run: those a [dispatch] of the run returned. *)
Definition issued (evs : list event) (h : nat) : Prop :=
  exists evs1 sendErr evs2,
    evs = evs1 ++ Dispatch sendErr :: evs2
    /\ h = snd (dispatch sendErr (run evs1)).

(** The pending table's invariant: a pending handle exists and is empty, no
    two pending requests share a handle, the ids in use are below the next
    id, and every empty handle is pending. *)
Definition invariant (st : State) : Prop :=
  (forall id h, pending st !! id = Some h -> handles st !! h = Some None)
  /\ (forall id1 id2 h, pending st !! id1 = Some h -> pending st !! id2 = Some h -> id1 = id2)
  /\ (forall id h, pending st !! id = Some h -> (id < nextID st)%N)
  /\ (forall h, handles st !! h = Some None -> exists id, pending st !! id = Some h).

End dispatch.

(** ** A reference instantiation

    The closed examples below fix the parameters of the development: a
    [float64] is kept as the decimal literal it was read from, the result of
    gettxout is btcjson's struct, and a block is read as its 80-byte header
    followed by the undecoded transactions. *)
Module example.

Definition float64 : Type := string.
Definition float64_zero : float64 := "0".
Definition ParseFloat (s : string) : option float64 := Some s.

Definition GetTxOutResult : json.StructType :=
  btcjson.GetTxOutResultT float64 float64_zero ParseFloat.

Record MsgBlock : Type := { Header : list byte; Transactions : list byte }.

Definition MsgBlock_zero : MsgBlock := {| Header := []; Transactions := [] |}.

Definition Deserialize (m : MsgBlock) (r : list byte) : MsgBlock * option error :=
  if (length r <? 80)%nat then (m, Some (OtherError "unexpected EOF"))
  else ({| Header := take 80 r; Transactions := drop 80 r |}, None).

(** A JSON string literal with the given content (no escapes). *)
Definition quoted (s : string) : list byte :=
  list_byte_of_string (String "034" (s +:+ String "034" "")).

End example.

(** ** Vocabulary of the statements *)

Create HintDb receive.

(** [bytes s] is [[]byte(s)]. *)
Definition bytes (s : string) : list byte := list_byte_of_string s.

(** A future on which the payload [res] is delivered with no error. *)
Definition delivered (res : list byte) : Future := Some (Response res None).

(** A call returned either a result with no error, or the zero value [z]
    with an error. *)
Definition resultOrError {T : Type} (z : T) (o : go (T * option error)) : Prop :=
  exists v e, o = Return (v, e) /\ (e = None \/ v = z).

(** The strings [chainhash.NewHashFromStr] accepts are made of these. *)
Definition hexByte (c : byte) : bool := bool_decide (is_Some (hex.fromHexChar c)).

Definition isHexString (s : string) : bool :=
  forallb hexByte (list_byte_of_string s).

(** The kinds of a JSON value. *)
Definition isNumber (j : json.Value) : bool :=
  match j with json.Number _ => true | _ => false end.
Definition isBool (j : json.Value) : bool :=
  match j with json.Bool _ => true | _ => false end.
Definition isNull (j : json.Value) : bool :=
  match j with json.Null => true | _ => false end.
Definition isObject (j : json.Value) : bool :=
  match j with json.Object _ => true | _ => false end.

(** * Properties *)

(** ** Hexadecimal strings and hashes *)

Lemma length_list_byte_of_string (s : string) :
  length (list_byte_of_string s) = String.length s.
Proof.
  unfold list_byte_of_string. rewrite length_map.
  induction s as [|c s IH]; simpl; [reflexivity | now rewrite IH].
Qed.

(** Induction over a list two elements at a time. *)
Lemma pairs_ind {A : Type} (P : list A -> Prop) :
  P [] -> (forall a, P [a]) -> (forall a b l, P l -> P (a :: b :: l)) ->
  forall l, P l.
Proof.
  intros H0 H1 H2 l.
  assert (H : P l /\ forall a, P (a :: l)); [| apply H].
  induction l as [|b l [IHl IHl']]; split; auto.
Qed.

(** The loop of [hex.Decode] fails exactly when some byte is no hex digit. *)
Lemma decodeLoop_error (src : list byte) :
  Nat.even (length src) = true ->
  forall i dst, (hex.decodeLoop i src dst).2 = None <-> forallb hexByte src = true.
Proof.
  induction src as [|a|a b rest IH] using pairs_ind; intros Hlen i dst.
  - simpl. tauto.
  - discriminate Hlen.
  - cbn [hex.decodeLoop forallb]. unfold hexByte at 1 2.
    destruct (hex.fromHexChar a) as [x|] eqn:Ha; simpl.
    2: { split; discriminate. }
    destruct (hex.fromHexChar b) as [y|] eqn:Hb; simpl.
    2: { split; discriminate. }
    apply IH. exact Hlen.
Qed.

Lemma hexDecode_error (dst src : list byte) :
  Nat.even (length src) = true ->
  ((hex.Decode dst src).2.2 = None <-> forallb hexByte src = true).
Proof.
  intros Hlen. unfold hex.Decode.
  rewrite <- Nat.negb_even, Hlen. simpl.
  pose proof (decodeLoop_error src Hlen 0 dst) as H.
  destruct (hex.decodeLoop 0 src dst) as [d [e|]]; simpl in *; exact H.
Qed.

(** [chainhash.Decode] reports an error exactly for a string of more than 64
    characters or with a character that is no hex digit. *)
Lemma chainhash_Decode_error (dst : chainhash.Hash) (s : string) :
  (chainhash.Decode dst s).2 = None <->
  (String.length s <= 64 /\ isHexString s = true).
Proof.
  unfold chainhash.Decode, isHexString.
  change chainhash.MaxHashStringSize with 64.
  destruct (Nat.ltb_spec 64 (String.length s)) as [Hlong|Hshort]; simpl.
  { split; [discriminate | lia]. }
  set (srcBytes := if Nat.even (String.length s) then _ else _).
  assert (Heven : Nat.even (length srcBytes) = true).
  { subst srcBytes. destruct (Nat.even (String.length s)) eqn:E.
    - now rewrite length_list_byte_of_string.
    - simpl length. rewrite length_list_byte_of_string, Nat.even_succ, <- Nat.negb_even, E.
      reflexivity. }
  assert (Hvalid : forallb hexByte srcBytes = forallb hexByte (list_byte_of_string s)).
  { subst srcBytes. destruct (Nat.even (String.length s)); reflexivity. }
  pose proof (hexDecode_error
    (drop (chainhash.HashSize - hex.DecodedLen (length srcBytes)) chainhash.newHash)
    srcBytes Heven) as H.
  rewrite Hvalid in H.
  destruct (hex.Decode _ srcBytes) as [tl [n [e|]]]; simpl in *.
  - split; [discriminate|]. intros [_ Hh]. apply H in Hh. discriminate.
  - split; [|reflexivity]. intros _. split; [lia | now apply H].
Qed.

Lemma NewHashFromStr_cases (s : string) :
  (exists h, chainhash.NewHashFromStr s = (Some h, None))
  \/ (exists e, chainhash.NewHashFromStr s = (None, Some e)).
Proof.
  unfold chainhash.NewHashFromStr.
  destruct (chainhash.Decode chainhash.newHash s) as [h [e|]]; eauto.
Qed.

Lemma NewHashFromStr_error (s : string) :
  (exists e, chainhash.NewHashFromStr s = (None, Some e)) <->
  (64 < String.length s \/ isHexString s = false).
Proof.
  pose proof (chainhash_Decode_error chainhash.newHash s) as H.
  unfold chainhash.NewHashFromStr.
  destruct (chainhash.Decode chainhash.newHash s) as [h [e|]]; simpl in H.
  - split; [intros _|eauto].
    destruct (Nat.ltb_spec 64 (String.length s)); [now left|right].
    destruct (isHexString s); [|reflexivity].
    destruct H as [_ H]. discriminate H. split; [lia|reflexivity].
  - split; [intros [e He]; discriminate|].
    destruct H as [H _]. destruct (H eq_refl) as [Hl Hh].
    intros [?|?]; [lia | congruence].
Qed.

(** ** The decoders of chain.go *)

Lemma parse_null : json.parse (bytes "null") = Some json.Null.
Proof. reflexivity. Qed.

Lemma bytes_of_string_eq (res : list byte) (s : string) :
  string_of_list_byte res = s -> res = bytes s.
Proof.
  intros <-. unfold bytes. now rewrite list_byte_of_string_of_list_byte.
Qed.

(** Unfold a [Receive] and run its [receiveFuture] on the given future. *)
Ltac receive_unfold :=
  unfold FutureGetBestBlockHashResult_Receive, FutureGetBlockResult_Receive,
    FutureGetBlockVerboseResult_Receive, FutureGetBlockCountResult_Receive,
    FutureGetDifficultyResult_Receive, FutureGetBlockHashResult_Receive,
    FutureGetRawMempoolResult_Receive, FutureGetRawMempoolVerboseResult_Receive,
    FutureVerifyChainResult_Receive, FutureGetTxOutResult_Receive, delivered;
  cbn [receiveFuture mbind go_bind result err].

(** What [json.Unmarshal] does to a nil pointer to a struct. *)
Lemma Unmarshal_ptr_struct (S : json.StructType) (res : list byte) :
  json.Unmarshal res (None : ptr (json.carrier S)) =
  match json.parse res with
  | None => (None, Some SyntaxError)
  | Some json.Null => (None, None)
  | Some (json.Object ms) =>
      let '(v, e) := json.storeFields S ms (json.struct_zero S) in (Some v, e)
  | Some _ => (Some (json.struct_zero S), Some UnmarshalTypeError)
  end.
Proof.
  unfold json.Unmarshal. destruct (json.parse res) as [[]|]; reflexivity.
Qed.

(** C1. For the unspent-output lookup, a payload that is exactly the text
    [null] yields the absent result (nil) with no error.  A malformed reply is
    told apart from it: a payload that is not valid JSON yields a nil result
    with a [SyntaxError], and one that is a JSON number, string, boolean or
    array yields a nil result with an [UnmarshalTypeError]. *)
Theorem C1_gettxout_null_is_absent (GetTxOutResult : json.StructType) :
  FutureGetTxOutResult_Receive GetTxOutResult (delivered (bytes "null"))
    = Return (None, None)
  /\ (forall res, json.parse res = None ->
        FutureGetTxOutResult_Receive GetTxOutResult (delivered res)
          = Return (None, Some SyntaxError))
  /\ (forall res j, json.parse res = Some j ->
        isNull j = false -> isObject j = false ->
        FutureGetTxOutResult_Receive GetTxOutResult (delivered res)
          = Return (None, Some UnmarshalTypeError)).
Proof.
  split; [reflexivity|]. split.
  - intros res Hparse. receive_unfold.
    destruct (decide (string_of_list_byte res = "null")) as [Heq|_].
    { apply bytes_of_string_eq in Heq. subst res.
      rewrite parse_null in Hparse. discriminate. }
    rewrite Unmarshal_ptr_struct, Hparse. reflexivity.
  - intros res j Hparse Hnull Hobj. receive_unfold.
    destruct (decide (string_of_list_byte res = "null")) as [Heq|_].
    { apply bytes_of_string_eq in Heq. subst res.
      rewrite parse_null in Hparse. injection Hparse as <-. discriminate. }
    rewrite Unmarshal_ptr_struct, Hparse.
    destruct j; try discriminate; reflexivity.
Qed.

Lemma C1_gettxout_null_is_absent_witness :
  FutureGetTxOutResult_Receive example.GetTxOutResult (delivered (bytes "{"))
    = Return (None, Some SyntaxError)
  /\ FutureGetTxOutResult_Receive example.GetTxOutResult (delivered (bytes "[1, 2]"))
    = Return (None, Some UnmarshalTypeError).
Proof.
  destruct (C1_gettxout_null_is_absent example.GetTxOutResult) as (_ & Hsyntax & Htype).
  split.
  - apply Hsyntax. reflexivity.
  - apply (Htype _ (json.Array [json.Number "1"; json.Number "2"])); reflexivity.
Defined.

Lemma resultOrError_value {T : Type} (z v : T) :
  resultOrError z (Return (v, None)).
Proof. exists v, None. auto. Qed.

Lemma resultOrError_error {T : Type} (z : T) (e : error) :
  resultOrError z (Return (z, Some e)).
Proof. exists z, (Some e). auto. Qed.

Lemma resultOrError_NewHashFromStr (s : string) :
  resultOrError None (Return (chainhash.NewHashFromStr s)).
Proof.
  destruct (NewHashFromStr_cases s) as [[h ->]|[e ->]];
    [apply resultOrError_value | apply resultOrError_error].
Qed.

Lemma hashesLoop_cases (strs : list string) :
  forall acc,
    (exists hs, hashesLoop strs acc = (Some hs, None))
    \/ (exists e, hashesLoop strs acc = (None, Some e)).
Proof.
  induction strs as [|s strs IH]; intros acc; simpl; [eauto|].
  destruct (NewHashFromStr_cases s) as [[h ->]|[e ->]]; [apply IH | eauto].
Qed.

Lemma resultOrError_hashesLoop (strs : list string) acc :
  resultOrError None (Return (hashesLoop strs acc)).
Proof.
  destruct (hashesLoop_cases strs acc) as [[h ->]|[e ->]];
    [apply resultOrError_value | apply resultOrError_error].
Qed.

#[local] Hint Resolve resultOrError_value resultOrError_error
  resultOrError_NewHashFromStr resultOrError_hashesLoop : receive.

(** Case analysis on what the future delivered and on each decoding step. *)
Ltac receive_cases :=
  receive_unfold;
  repeat match goal with
    | |- context [match ?e with Some _ => _ | None => _ end] =>
        is_var e; destruct e
    | |- context [let '(_, _) := ?x in _] => destruct x as [? [?|]]
    | |- context [decide ?P] => destruct (decide P)
    end;
  auto with receive.

(** C2. Every [Receive] of chain.go, whatever response its future delivers,
    returns either a result with no error, or an error together with the zero
    value of its result type (nil, 0 or false): no partly decoded result comes
    with an error. *)
Theorem C2_result_or_error
    (float64 : Type) (float64_zero : float64)
    (ParseFloat : string -> option float64)
    (MsgBlock : Type) (MsgBlock_zero : MsgBlock)
    (Deserialize : MsgBlock -> list byte -> MsgBlock * option error)
    (GetBlockVerboseResult GetRawMempoolVerboseResult GetTxOutResult : json.StructType)
    (r : response) :
  resultOrError None (FutureGetBestBlockHashResult_Receive (Some r))
  /\ resultOrError None (FutureGetBlockResult_Receive MsgBlock_zero Deserialize (Some r))
  /\ resultOrError None (FutureGetBlockVerboseResult_Receive GetBlockVerboseResult (Some r))
  /\ resultOrError 0%Z (FutureGetBlockCountResult_Receive (Some r))
  /\ resultOrError float64_zero
       (FutureGetDifficultyResult_Receive float64_zero ParseFloat (Some r))
  /\ resultOrError None (FutureGetBlockHashResult_Receive (Some r))
  /\ resultOrError None (FutureGetRawMempoolResult_Receive (Some r))
  /\ resultOrError None
       (FutureGetRawMempoolVerboseResult_Receive GetRawMempoolVerboseResult (Some r))
  /\ resultOrError false (FutureVerifyChainResult_Receive (Some r))
  /\ resultOrError None (FutureGetTxOutResult_Receive GetTxOutResult (Some r)).
Proof.
  destruct r as [res e].
  repeat split; receive_cases.
Qed.

(** An array of strings is decoded into the slice of those strings. *)
Lemma storeElems_strings (strs : list string) :
  json.storeElems (json.Str <$> strs) ([] : list string) = (strs, None).
Proof.
  induction strs as [|s strs IH]; [reflexivity|].
  cbn [fmap list_fmap json.storeElems head tail default json.store
       json.string_GoType].
  change (list_fmap string json.Value json.Str strs) with (json.Str <$> strs).
  now rewrite IH.
Qed.

Lemma Unmarshal_strings (res : list byte) (strs : list string) :
  json.parse res = Some (json.Array (json.Str <$> strs)) ->
  json.Unmarshal res (json.zero : slice string) = (Some strs, None).
Proof.
  intros Hparse. unfold json.Unmarshal. rewrite Hparse.
  cbn [json.store json.slice_GoType json.zero default].
  now rewrite storeElems_strings.
Qed.

(** The loop appends the hash of each string while the strings are hashes. *)
Lemma hashesLoop_app (pre : list string) (hs : list chainhash.Hash) :
  Forall2 (fun s h => chainhash.NewHashFromStr s = (Some h, None)) pre hs ->
  forall rest acc,
    hashesLoop (pre ++ rest) acc = hashesLoop rest (acc ++ (Some <$> hs)).
Proof.
  induction 1 as [|s h pre hs Hs _ IH]; intros rest acc.
  - now rewrite app_nil_r.
  - cbn [app hashesLoop]. rewrite Hs. cbn [fmap list_fmap].
    rewrite IH, <- app_assoc. reflexivity.
Qed.

(** C3. When the payload is an array of strings, the list-of-hashes decode
    goes through the strings in order.  If all of them are hashes, it returns
    the list of their hashes, of the same length and in the same order, with
    no error.  If one is not, it returns the nil list with the error of the
    first such string.  One of the two is always the case. *)
Theorem C3_rawmempool_elementwise (res : list byte) (strs : list string) :
  json.parse res = Some (json.Array (json.Str <$> strs)) ->
  (forall hs,
      Forall2 (fun s h => chainhash.NewHashFromStr s = (Some h, None)) strs hs ->
      FutureGetRawMempoolResult_Receive (delivered res)
        = Return (Some (Some <$> hs), None)
      /\ length hs = length strs)
  /\ (forall pre s post hs e,
      strs = pre ++ s :: post ->
      Forall2 (fun s h => chainhash.NewHashFromStr s = (Some h, None)) pre hs ->
      chainhash.NewHashFromStr s = (None, Some e) ->
      FutureGetRawMempoolResult_Receive (delivered res) = Return (None, Some e))
  /\ ((exists hs,
        Forall2 (fun s h => chainhash.NewHashFromStr s = (Some h, None)) strs hs)
      \/ (exists pre s post hs e,
        strs = pre ++ s :: post
        /\ Forall2 (fun s h => chainhash.NewHashFromStr s = (Some h, None)) pre hs
        /\ chainhash.NewHashFromStr s = (None, Some e))).
Proof.
  intros Hparse.
  assert (Hrecv : FutureGetRawMempoolResult_Receive (delivered res)
                  = Return (hashesLoop strs [])).
  { receive_unfold. now rewrite (Unmarshal_strings res strs Hparse). }
  rewrite Hrecv. split; [|split].
  - intros hs Hall. split.
    + rewrite <- (app_nil_r strs), (hashesLoop_app strs hs Hall). reflexivity.
    + symmetry. eapply Forall2_length, Hall.
  - intros pre s post hs e -> Hpre Hs.
    rewrite (hashesLoop_app pre hs Hpre). cbn [hashesLoop]. now rewrite Hs.
  - clear. induction strs as [|s strs IH].
    + left. exists []. constructor.
    + destruct (NewHashFromStr_cases s) as [[h Hh]|[e He]].
      * destruct IH as [[hs Hhs]|(pre & s' & post & hs & e & -> & Hpre & He)].
        -- left. exists (h :: hs). now constructor.
        -- right. exists (s :: pre), s', post, (h :: hs), e.
           split; [reflexivity|]. split; [now constructor | exact He].
      * right. exists [], s, strs, [], e.
        split; [reflexivity|]. split; [constructor | exact He].
Qed.

Lemma C3_rawmempool_elementwise_witness :
  FutureGetRawMempoolResult_Receive
    (delivered (bytes "[" ++ example.quoted "0a" ++ bytes ", "
                ++ example.quoted "zz" ++ bytes "]"))
  = Return (None, Some (InvalidByteError "z")).
Proof.
  pose proof (C3_rawmempool_elementwise
                (bytes "[" ++ example.quoted "0a" ++ bytes ", "
                 ++ example.quoted "zz" ++ bytes "]")
                ["0a"; "zz"] eq_refl) as (_ & Hbad & _).
  eapply (Hbad ["0a"] "zz" []); [reflexivity | | reflexivity].
  econstructor; [reflexivity | constructor].
Defined.

Lemma Unmarshal_string (res : list byte) (s : string) :
  json.parse res = Some (json.Str s) ->
  json.Unmarshal res (json.zero : string) = (s, None).
Proof. intros Hparse. unfold json.Unmarshal. now rewrite Hparse. Qed.

(** C4. For the best-block-hash operation, the reply ["00000000000000000aab"]
    decodes, with no error, to the hash of that value: the hash whose first
    two bytes are ab and 0a and whose other bytes are zero, and which prints
    as that value padded with zeros to 64 digits.  The reply ["zz"] yields
    the hex package's invalid-byte error and a nil hash.  In general a reply
    that is a JSON string decodes to what [NewHashFromStr] makes of the
    string, and that is an error exactly when the string has more than 64
    characters or a character that is no hex digit. *)
Theorem C4_best_block_hash_examples :
  (exists h,
      FutureGetBestBlockHashResult_Receive
        (delivered (example.quoted "00000000000000000aab")) = Return (Some h, None)
      /\ h = "171"%byte :: "010"%byte :: replicate 30 "000"%byte
      /\ chainhash.String h
         = "0000000000000000000000000000000000000000000000000000000000000aab")
  /\ FutureGetBestBlockHashResult_Receive (delivered (example.quoted "zz"))
     = Return (None, Some (InvalidByteError "z"))
  /\ (forall res s, json.parse res = Some (json.Str s) ->
        FutureGetBestBlockHashResult_Receive (delivered res)
          = Return (chainhash.NewHashFromStr s))
  /\ (forall s,
        (exists e, chainhash.NewHashFromStr s = (None, Some e))
        <-> (64 < String.length s \/ isHexString s = false)).
Proof.
  split; [|split; [|split]].
  - eexists. split; [reflexivity|]. split; reflexivity.
  - reflexivity.
  - intros res s Hparse. receive_unfold.
    now rewrite (Unmarshal_string res s Hparse).
  - apply NewHashFromStr_error.
Qed.

Lemma C4_best_block_hash_examples_witness :
  FutureGetBestBlockHashResult_Receive (delivered (example.quoted "0g"))
  = Return (chainhash.NewHashFromStr "0g")
  /\ exists e, chainhash.NewHashFromStr "0g" = (None, Some e).
Proof.
  destruct C4_best_block_hash_examples as (_ & _ & Hstr & Herr).
  split.
  - apply Hstr. reflexivity.
  - apply Herr. right. reflexivity.
Defined.

(** C5, as it holds.  For the unspent-output lookup, the reply [{}] yields a
    present result whose fields all have their zero values, with no error
    (the decoder has no required fields), and the reply [null] yields the
    absent result with no error. *)
Theorem C5_gettxout_empty_object_and_null (GetTxOutResult : json.StructType) :
  FutureGetTxOutResult_Receive GetTxOutResult (delivered (bytes "{}"))
    = Return (Some (json.struct_zero GetTxOutResult), None)
  /\ FutureGetTxOutResult_Receive GetTxOutResult (delivered (bytes "null"))
    = Return (None, None).
Proof. split; reflexivity. Qed.

(** C5, as stated, fails: with btcjson's struct, the reply [{}] yields a
    result and no error, so it yields no decode error. *)
Lemma C5_empty_object_yields_no_error :
  FutureGetTxOutResult_Receive example.GetTxOutResult (delivered (bytes "{}"))
    = Return (Some (json.struct_zero example.GetTxOutResult), None)
  /\ ~ (exists v e,
         FutureGetTxOutResult_Receive example.GetTxOutResult (delivered (bytes "{}"))
         = Return (v, Some e)).
Proof.
  split; [reflexivity|]. intros (v & e & H). discriminate H.
Qed.

(** C6. Each blocking function is its Async function followed by [Receive]
    on the future it returns: for all arguments both return the same. *)
Theorem C6_blocking_is_async_then_receive
    (float64 : Type) (float64_zero : float64)
    (ParseFloat : string -> option float64)
    (MsgBlock : Type) (MsgBlock_zero : MsgBlock)
    (Deserialize : MsgBlock -> list byte -> MsgBlock * option error)
    (GetBlockVerboseResult GetRawMempoolVerboseResult GetTxOutResult : json.StructType)
    (Client : Type) (sendCmd : Client -> btcjson.Cmd -> Future) (c : Client)
    (hash : ptr chainhash.Hash) (verboseTx mempool : bool)
    (blockHeight : json.int64) (checkLevel numBlocks : btcjson.int32)
    (index : btcjson.uint32) :
  GetBestBlockHash sendCmd c
    = GetBestBlockHashAsync sendCmd c ≫= FutureGetBestBlockHashResult_Receive
  /\ GetBlock MsgBlock_zero Deserialize sendCmd c hash
    = GetBlockAsync sendCmd c hash
        ≫= FutureGetBlockResult_Receive MsgBlock_zero Deserialize
  /\ GetBlockVerbose GetBlockVerboseResult sendCmd c hash verboseTx
    = GetBlockVerboseAsync sendCmd c hash verboseTx
        ≫= FutureGetBlockVerboseResult_Receive GetBlockVerboseResult
  /\ GetBlockCount sendCmd c
    = GetBlockCountAsync sendCmd c ≫= FutureGetBlockCountResult_Receive
  /\ GetDifficulty float64_zero ParseFloat sendCmd c
    = GetDifficultyAsync sendCmd c
        ≫= FutureGetDifficultyResult_Receive float64_zero ParseFloat
  /\ GetBlockHash sendCmd c blockHeight
    = GetBlockHashAsync sendCmd c blockHeight ≫= FutureGetBlockHashResult_Receive
  /\ GetRawMempool sendCmd c
    = GetRawMempoolAsync sendCmd c ≫= FutureGetRawMempoolResult_Receive
  /\ GetRawMempoolVerbose GetRawMempoolVerboseResult sendCmd c
    = GetRawMempoolVerboseAsync sendCmd c
        ≫= FutureGetRawMempoolVerboseResult_Receive GetRawMempoolVerboseResult
  /\ VerifyChain sendCmd c
    = VerifyChainAsync sendCmd c ≫= FutureVerifyChainResult_Receive
  /\ VerifyChainLevel sendCmd c checkLevel
    = VerifyChainLevelAsync sendCmd c checkLevel ≫= FutureVerifyChainResult_Receive
  /\ VerifyChainBlocks sendCmd c checkLevel numBlocks
    = VerifyChainBlocksAsync sendCmd c checkLevel numBlocks
        ≫= FutureVerifyChainResult_Receive
  /\ GetTxOut GetTxOutResult sendCmd c hash index mempool
    = GetTxOutAsync sendCmd c hash index mempool
        ≫= FutureGetTxOutResult_Receive GetTxOutResult.
Proof.
  unfold GetBestBlockHash, GetBlock, GetBlockVerbose, GetBlockCount,
    GetDifficulty, GetBlockHash, GetRawMempool, GetRawMempoolVerbose,
    VerifyChain, VerifyChainLevel, VerifyChainBlocks, GetTxOut.
  repeat split.
Qed.

(** C7. The raw-block decode goes through three stages on the payload: it is
    unmarshalled as a string, the string is hex-decoded to bytes, and the
    bytes are deserialized as a block.  The error of the first stage that
    fails is returned with a nil block; when all succeed, the block built
    from the deserialized message is returned with no error. *)
Theorem C7_getblock_stages
    (MsgBlock : Type) (MsgBlock_zero : MsgBlock)
    (Deserialize : MsgBlock -> list byte -> MsgBlock * option error)
    (res : list byte) :
  (forall s e,
      json.Unmarshal res (json.zero : string) = (s, Some e) ->
      FutureGetBlockResult_Receive MsgBlock_zero Deserialize (delivered res)
        = Return (None, Some e))
  /\ (forall blockHex bs e,
      json.Unmarshal res (json.zero : string) = (blockHex, None) ->
      hex.DecodeString blockHex = (bs, Some e) ->
      FutureGetBlockResult_Receive MsgBlock_zero Deserialize (delivered res)
        = Return (None, Some e))
  /\ (forall blockHex serializedBlock m e,
      json.Unmarshal res (json.zero : string) = (blockHex, None) ->
      hex.DecodeString blockHex = (serializedBlock, None) ->
      Deserialize MsgBlock_zero serializedBlock = (m, Some e) ->
      FutureGetBlockResult_Receive MsgBlock_zero Deserialize (delivered res)
        = Return (None, Some e))
  /\ (forall blockHex serializedBlock m,
      json.Unmarshal res (json.zero : string) = (blockHex, None) ->
      hex.DecodeString blockHex = (serializedBlock, None) ->
      Deserialize MsgBlock_zero serializedBlock = (m, None) ->
      FutureGetBlockResult_Receive MsgBlock_zero Deserialize (delivered res)
        = Return (Some (NewBlock m), None)).
Proof.
  repeat split; intros; receive_unfold;
    repeat match goal with H : _ = (_, _) |- _ => rewrite H; clear H end;
    reflexivity.
Qed.

Lemma C7_getblock_stages_witness :
  FutureGetBlockResult_Receive example.MsgBlock_zero example.Deserialize
    (delivered (bytes "17")) = Return (None, Some UnmarshalTypeError)
  /\ FutureGetBlockResult_Receive example.MsgBlock_zero example.Deserialize
    (delivered (example.quoted "0")) = Return (None, Some ErrLength)
  /\ FutureGetBlockResult_Receive example.MsgBlock_zero example.Deserialize
    (delivered (example.quoted "00ff"))
    = Return (None, Some (OtherError "unexpected EOF"))
  /\ FutureGetBlockResult_Receive example.MsgBlock_zero example.Deserialize
    (delivered (example.quoted (string_of_list_byte (replicate 162 "0"%byte))))
    = Return (Some (NewBlock
        {| example.Header := replicate 80 x00; example.Transactions := [x00] |}),
        None).
Proof.
  split; [|split; [|split]].
  - apply (proj1 (C7_getblock_stages _ example.MsgBlock_zero example.Deserialize
                    (bytes "17")) "" UnmarshalTypeError).
    vm_compute. reflexivity.
  - apply (proj1 (proj2 (C7_getblock_stages _ example.MsgBlock_zero
                           example.Deserialize (example.quoted "0")))
             "0" [] ErrLength); vm_compute; reflexivity.
  - apply (proj1 (proj2 (proj2 (C7_getblock_stages _ example.MsgBlock_zero
                           example.Deserialize (example.quoted "00ff"))))
             "00ff" [x00; xff] example.MsgBlock_zero (OtherError "unexpected EOF"));
      vm_compute; reflexivity.
  - apply (proj2 (proj2 (proj2 (C7_getblock_stages _ example.MsgBlock_zero
                           example.Deserialize
                           (example.quoted (string_of_list_byte (replicate 162 "0"%byte))))))
             (string_of_list_byte (replicate 162 "0"%byte)) (replicate 81 x00));
      vm_compute; reflexivity.
Defined.

(** What [ParseInt] returns fits the requested size. *)
Lemma ParseInt_no_overflow (lit : string) (bits : Z) (n : Z) :
  json.ParseInt lit bits = Some n -> json.OverflowInt bits n = false.
Proof.
  unfold json.ParseInt, json.OverflowInt.
  destruct (match list_ascii_of_string lit with
            | [] => (false, list_ascii_of_string lit)
            | c :: r => _
            end) as [neg ds].
  destruct ds as [|d ds]; [discriminate|].
  destruct (json.digitsValue 0 (d :: ds)) as [m|]; [|discriminate].
  cbn [mbind option_bind].
  destruct (_ && _)%bool eqn:Hrange; [|discriminate].
  intros [= <-]. now rewrite Hrange.
Qed.

(** C8, as it holds.  The scalar operations decode the payload directly into
    an int64 (block count), a float64 (difficulty) or a bool (chain
    verification).  A payload that is not valid JSON fails with a
    [SyntaxError], and one that is a JSON value of another kind, other than
    [null], fails with an [UnmarshalTypeError], as does a number that the
    type cannot hold; the zero value comes with each error.  The payload
    [null] yields the zero value and no error. *)
Theorem C8_scalar_decoding
    (float64 : Type) (float64_zero : float64)
    (ParseFloat : string -> option float64) (res : list byte) :
  (json.parse res = None ->
     FutureGetBlockCountResult_Receive (delivered res)
       = Return (0%Z, Some SyntaxError)
     /\ FutureGetDifficultyResult_Receive float64_zero ParseFloat (delivered res)
       = Return (float64_zero, Some SyntaxError)
     /\ FutureVerifyChainResult_Receive (delivered res)
       = Return (false, Some SyntaxError))
  /\ (forall j, json.parse res = Some j -> isNull j = false ->
       (isNumber j = false ->
          FutureGetBlockCountResult_Receive (delivered res)
            = Return (0%Z, Some UnmarshalTypeError)
          /\ FutureGetDifficultyResult_Receive float64_zero ParseFloat (delivered res)
            = Return (float64_zero, Some UnmarshalTypeError))
       /\ (isBool j = false ->
          FutureVerifyChainResult_Receive (delivered res)
            = Return (false, Some UnmarshalTypeError)))
  /\ (json.parse res = Some json.Null ->
       FutureGetBlockCountResult_Receive (delivered res) = Return (0%Z, None)
       /\ FutureGetDifficultyResult_Receive float64_zero ParseFloat (delivered res)
         = Return (float64_zero, None)
       /\ FutureVerifyChainResult_Receive (delivered res) = Return (false, None))
  /\ (forall lit, json.parse res = Some (json.Number lit) ->
       FutureGetBlockCountResult_Receive (delivered res)
         = Return (match json.ParseInt lit 64 with
                   | Some n => (n, None)
                   | None => (0%Z, Some UnmarshalTypeError)
                   end)
       /\ FutureGetDifficultyResult_Receive float64_zero ParseFloat (delivered res)
         = Return (match ParseFloat lit with
                   | Some f => (f, None)
                   | None => (float64_zero, Some UnmarshalTypeError)
                   end))
  /\ (forall b, json.parse res = Some (json.Bool b) ->
       FutureVerifyChainResult_Receive (delivered res) = Return (b, None)).
Proof.
  split; [|split; [|split; [|split]]].
  - intros Hparse. receive_unfold. unfold json.Unmarshal. rewrite Hparse.
    auto.
  - intros j Hparse Hnull. receive_unfold. unfold json.Unmarshal.
    rewrite Hparse. split; intros Hkind; destruct j; try discriminate; auto.
  - intros Hparse. receive_unfold. unfold json.Unmarshal. rewrite Hparse.
    auto.
  - intros lit Hparse. receive_unfold. unfold json.Unmarshal. rewrite Hparse.
    split.
    + cbn [json.store json.int64_GoType json.int_GoType json.typeError].
      destruct (json.ParseInt lit 64) as [n|] eqn:Hn; [|reflexivity].
      now rewrite (ParseInt_no_overflow lit 64 n Hn).
    + unfold float64_GoType.
      cbn [json.store json.zero json.float_GoType json.typeError].
      destruct (ParseFloat lit); reflexivity.
  - intros b Hparse. receive_unfold. unfold json.Unmarshal. rewrite Hparse.
    reflexivity.
Qed.

Lemma C8_scalar_decoding_witness :
  FutureGetBlockCountResult_Receive (delivered (bytes "12x"))
    = Return (0%Z, Some SyntaxError)
  /\ FutureGetBlockCountResult_Receive (delivered (example.quoted "12"))
    = Return (0%Z, Some UnmarshalTypeError)
  /\ FutureVerifyChainResult_Receive (delivered (bytes "1"))
    = Return (false, Some UnmarshalTypeError)
  /\ FutureGetDifficultyResult_Receive example.float64_zero example.ParseFloat
       (delivered (bytes "null")) = Return (example.float64_zero, None)
  /\ FutureGetBlockCountResult_Receive (delivered (bytes "436213"))
    = Return (436213%Z, None)
  /\ FutureVerifyChainResult_Receive (delivered (bytes "true"))
    = Return (true, None).
Proof.
  pose proof (fun res => C8_scalar_decoding example.float64 example.float64_zero
                example.ParseFloat res) as H.
  split; [|split; [|split; [|split; [|split]]]].
  - apply (proj1 (H (bytes "12x"))). reflexivity.
  - apply (proj1 (proj2 (H (example.quoted "12"))) (json.Str "12")); reflexivity.
  - apply (proj1 (proj2 (H (bytes "1"))) (json.Number "1")); reflexivity.
  - apply (proj1 (proj2 (proj2 (H (bytes "null"))))). reflexivity.
  - apply (proj1 (proj2 (proj2 (proj2 (H (bytes "436213"))))) "436213").
    reflexivity.
  - apply (proj2 (proj2 (proj2 (proj2 (H (bytes "true")))))). reflexivity.
Defined.

(** C8, as stated, fails: the payload [null] is no number, and the block
    count decodes it to 0 with no error. *)
Lemma C8_null_is_no_type_error :
  json.parse (bytes "null") = Some json.Null
  /\ isNumber json.Null = false
  /\ FutureGetBlockCountResult_Receive (delivered (bytes "null"))
     = Return (0%Z, None)
  /\ ~ (exists v e,
         FutureGetBlockCountResult_Receive (delivered (bytes "null"))
         = Return (v, Some e)).
Proof.
  split; [reflexivity|]. split; [reflexivity|]. split; [reflexivity|].
  intros (v & e & H). discriminate H.
Qed.

(** C10. With a nil hash, [GetBlockAsync], [GetBlockVerboseAsync] and
    [GetTxOutAsync] build their command with the empty string as the hash
    and return the future of [sendCmd]; with any hash, nil or not, none of
    them panics. *)
Theorem C10_nil_hash_is_empty_string
    (Client : Type) (sendCmd : Client -> btcjson.Cmd -> Future) (c : Client)
    (verboseTx mempool : bool) (index : btcjson.uint32) :
  GetBlockAsync sendCmd c None
    = Return (sendCmd c (btcjson.GetBlockCmd "" (Some false) None))
  /\ GetBlockVerboseAsync sendCmd c None verboseTx
    = Return (sendCmd c (btcjson.GetBlockCmd "" (Some true) (Some verboseTx)))
  /\ GetTxOutAsync sendCmd c None index mempool
    = Return (sendCmd c (btcjson.GetTxOutCmd "" index (Some mempool)))
  /\ (forall hash : ptr chainhash.Hash,
        GetBlockAsync sendCmd c hash <> Panic
        /\ GetBlockVerboseAsync sendCmd c hash verboseTx <> Panic
        /\ GetTxOutAsync sendCmd c hash index mempool <> Panic).
Proof.
  split; [reflexivity|]. split; [reflexivity|]. split; [reflexivity|].
  intros [h|]; repeat split; discriminate.
Qed.

(** ** The dispatch engine: teardown resolves every outstanding handle *)

Section Dispatch.
Import dispatch.

Lemma fill_lookup_ne (h h' : nat) (r : response) (hs : list Future) :
  h ≠ h' -> fill h r hs !! h' = hs !! h'.
Proof.
  intros Hne. unfold fill.
  destruct (hs !! h) as [[r0|]|]; [reflexivity | | reflexivity].
  now apply list_lookup_insert_ne.
Qed.

Lemma fill_lookup_empty (h : nat) (r : response) (hs : list Future) :
  hs !! h = Some None -> fill h r hs !! h = Some (Some r).
Proof.
  intros Hh. unfold fill. rewrite Hh.
  apply list_lookup_insert_eq. eapply lookup_lt_Some, Hh.
Qed.

(** A filled handle keeps its response. *)
Lemma fill_lookup_filled (h h' : nat) (r r' : response) (hs : list Future) :
  hs !! h' = Some (Some r') -> fill h r hs !! h' = Some (Some r').
Proof.
  intros Hh'. destruct (decide (h = h')) as [->|Hne].
  - unfold fill. now rewrite Hh'.
  - now rewrite fill_lookup_ne.
Qed.

Lemma length_fill (h : nat) (r : response) (hs : list Future) :
  length (fill h r hs) = length hs.
Proof.
  unfold fill. destruct (hs !! h) as [[r0|]|]; [reflexivity | | reflexivity].
  apply length_insert.
Qed.

Lemma onReply_filled (id : N) (r r' : response) (h : nat) (st : State) :
  handles st !! h = Some (Some r') ->
  handles (onReply id r st) !! h = Some (Some r').
Proof.
  intros Hh. unfold onReply.
  destruct (pending st !! id) as [h0|]; [|exact Hh].
  now apply fill_lookup_filled.
Qed.

Lemma sweep_filled (n : nat) :
  forall (st : State) (h : nat) (r' : response),
    handles st !! h = Some (Some r') ->
    handles (sweep n st) !! h = Some (Some r').
Proof.
  induction n as [|n IH]; intros st h r' Hh; [exact Hh|].
  cbn [sweep]. unfold sweepOne.
  destruct (map_to_list (pending st)) as [|[id0 h0] l]; [exact Hh|].
  apply IH. now apply onReply_filled.
Qed.

(** No step of the engine removes a handle. *)
Lemma length_onReply (id : N) (r : response) (st : State) :
  length (handles (onReply id r st)) = length (handles st).
Proof.
  unfold onReply. destruct (pending st !! id) as [h|]; [|reflexivity].
  apply length_fill.
Qed.

Lemma length_sweep (n : nat) :
  forall st, length (handles (sweep n st)) = length (handles st).
Proof.
  induction n as [|n IH]; intros st; [reflexivity|].
  cbn [sweep]. unfold sweepOne.
  destruct (map_to_list (pending st)) as [|[id0 h0] l]; [reflexivity|].
  rewrite IH. apply length_onReply.
Qed.

Lemma length_step (st : State) (ev : event) :
  length (handles st) <= length (handles (step st ev)).
Proof.
  destruct ev as [[e|]|id r|]; cbn [step].
  - cbn. rewrite length_app. cbn. lia.
  - cbn. rewrite length_app. cbn. lia.
  - now rewrite length_onReply.
  - unfold onShutdown. now rewrite length_sweep.
Qed.

Lemma length_foldl_step (evs : list event) :
  forall st, length (handles st) <= length (handles (foldl step st evs)).
Proof.
  induction evs as [|ev evs IH]; intros st; [reflexivity|].
  cbn [foldl]. etransitivity; [apply length_step | apply IH].
Qed.

(** An issued handle is in the store of every later state. *)
Lemma issued_lookup (evs : list event) (h : nat) :
  issued evs h -> h < length (handles (run evs)).
Proof.
  intros (evs1 & sendErr & evs2 & -> & ->). unfold run.
  rewrite foldl_app. cbn [foldl].
  eapply Nat.lt_le_trans; [|apply length_foldl_step].
  cbn [step]. unfold dispatch.
  destruct sendErr as [e|]; cbn [fst snd handles];
    rewrite length_app; cbn [length]; lia.
Qed.

Lemma invariant_init : invariant init.
Proof.
  repeat split; cbn; intros *; try (rewrite lookup_empty; discriminate).
  rewrite lookup_nil. discriminate.
Qed.

Lemma invariant_dispatch (sendErr : option error) (st : State) :
  invariant st -> invariant (dispatch sendErr st).1.
Proof.
  intros (Hempty & Hinj & Hfresh & Hcover). unfold dispatch.
  destruct sendErr as [e|]; unfold invariant; cbn [fst nextID pending handles];
    (split; [|split; [|split]]).
  - intros id h Hid. apply lookup_app_l_Some. eauto.
  - exact Hinj.
  - intros id h Hid. apply Hfresh in Hid. lia.
  - intros h Hh. apply lookup_app_Some in Hh as [Hh|[_ Hh]]; [eauto|].
    apply list_lookup_singleton_Some in Hh as [_ Hh]. discriminate Hh.
  - intros id h. rewrite lookup_insert. case_decide as Hid.
    + intros [= <-]. apply list_lookup_middle. reflexivity.
    + intros Hp. apply lookup_app_l_Some. eauto.
  - intros id1 id2 h. rewrite !lookup_insert.
    repeat case_decide; subst; try congruence.
    + intros [= <-] Hp. apply Hempty, lookup_lt_Some in Hp.
      destruct (Nat.lt_irrefl _ Hp).
    + intros Hp [= <-]. apply Hempty, lookup_lt_Some in Hp.
      destruct (Nat.lt_irrefl _ Hp).
    + apply Hinj.
  - intros id h. rewrite lookup_insert. case_decide as Hid.
    + subst id. intros _. lia.
    + intros Hp. apply Hfresh in Hp. lia.
  - intros h Hh. apply lookup_app_Some in Hh as [Hh|[Hge Hh]].
    + destruct (Hcover h Hh) as [id Hid]. exists id.
      rewrite lookup_insert_ne; [exact Hid|].
      intros <-. apply Hfresh in Hid. lia.
    + exists (nextID st).
      apply list_lookup_singleton_Some in Hh as [Hh _].
      assert (h = length (handles st)) as ->.
      { apply Nat.le_antisymm; [apply Nat.sub_0_le; exact Hh | exact Hge]. }
      apply lookup_insert_eq.
Qed.

Lemma invariant_onReply (id : N) (r : response) (st : State) :
  invariant st -> invariant (onReply id r st).
Proof.
  intros (Hempty & Hinj & Hfresh & Hcover). unfold onReply.
  destruct (pending st !! id) as [h|] eqn:Hid; [|now repeat split].
  unfold invariant. cbn [nextID pending handles].
  split; [|split; [|split]].
  - intros id' h' [Hne Hp]%lookup_delete_Some.
    rewrite fill_lookup_ne; [eauto|].
    intros <-. apply Hne. eapply Hinj; eassumption.
  - intros id1 id2 h' [_ H1]%lookup_delete_Some [_ H2]%lookup_delete_Some.
    eapply Hinj; eassumption.
  - intros id' h' [_ Hp]%lookup_delete_Some. eauto.
  - intros h' Hh'.
    destruct (decide (h = h')) as [<-|Hne].
    { rewrite (fill_lookup_empty h r (handles st)) in Hh' by eauto.
      discriminate Hh'. }
    rewrite fill_lookup_ne in Hh' by exact Hne.
    destruct (Hcover h' Hh') as [id' Hid']. exists id'.
    apply lookup_delete_Some. split; [|exact Hid'].
    intros <-. congruence.
Qed.

Lemma invariant_sweep (n : nat) :
  forall st, invariant st -> invariant (sweep n st).
Proof.
  induction n as [|n IH]; intros st Hinv; [exact Hinv|].
  cbn [sweep]. unfold sweepOne.
  destruct (map_to_list (pending st)) as [|[id0 h0] l]; [exact Hinv|].
  apply IH. now apply invariant_onReply.
Qed.

(** Every state the engine reaches satisfies the invariant. *)
Lemma invariant_run (evs : list event) : invariant (run evs).
Proof.
  unfold run. induction evs as [|ev evs IH] using rev_ind.
  - apply invariant_init.
  - rewrite foldl_app. cbn [foldl]. destruct ev as [sendErr|id r|]; cbn [step].
    + now apply invariant_dispatch.
    + now apply invariant_onReply.
    + now apply invariant_sweep.
Qed.

(** After as many sweep steps as there are pending entries, none is pending
    and the handle of each holds the connection error. *)
Lemma sweep_resolves (n : nat) :
  forall st, invariant st -> size (pending st) <= n ->
    pending (sweep n st) = ∅
    /\ forall id h, pending st !! id = Some h ->
         handles (sweep n st) !! h = Some (Some connectionClosed).
Proof.
  induction n as [|n IH]; intros st Hinv Hsize.
  - assert (Hnone : pending st = ∅) by (apply map_size_empty_inv; lia).
    split; [exact Hnone|]. intros id h. rewrite Hnone, lookup_empty. discriminate.
  - cbn [sweep]. unfold sweepOne.
    destruct (map_to_list (pending st)) as [|[id0 h0] l] eqn:Hlist.
    { apply map_to_list_empty_iff in Hlist. split; [exact Hlist|].
      intros id h. rewrite Hlist, lookup_empty. discriminate. }
    assert (Hid0 : pending st !! id0 = Some h0).
    { apply elem_of_map_to_list. rewrite Hlist. left. }
    assert (Hstep : onReply id0 connectionClosed st
                    = {| nextID := nextID st; pending := delete id0 (pending st);
                         handles := fill h0 connectionClosed (handles st) |}).
    { unfold onReply. now rewrite Hid0. }
    destruct (IH (onReply id0 connectionClosed st)) as [Hnone Hall].
    { now apply invariant_onReply. }
    { rewrite Hstep. cbn [pending].
      rewrite (map_size_delete_Some id0 (pending st)) by eauto. lia. }
    split; [exact Hnone|]. intros id h Hid.
    destruct (decide (id = id0)) as [->|Hne].
    + assert (h = h0) by congruence. subst h.
      apply sweep_filled. rewrite Hstep. cbn [handles].
      apply fill_lookup_empty. destruct Hinv as [Hempty _]. eauto.
    + apply (Hall id). rewrite Hstep. cbn [pending].
      now rewrite lookup_delete_ne.
Qed.

(** What a receive on an issued handle yields, before and after the
    shutdown notification. *)
Lemma shutdown_receive (st : State) (h : nat) :
  invariant st -> h < length (handles st) ->
  pending (onShutdown st) = ∅
  /\ (receive h st = Blocked <-> exists id, pending st !! id = Some h)
  /\ (receive h st = Blocked ->
      future h (onShutdown st) = Some connectionClosed)
  /\ (forall x, receive h st = Return x -> receive h (onShutdown st) = Return x).
Proof.
  intros Hinv Hlt.
  destruct (sweep_resolves (size (pending st)) st Hinv (le_n _)) as [Hnone Hall].
  destruct Hinv as (Hempty & _ & _ & Hcover).
  apply lookup_lt_is_Some_2 in Hlt as [f Hf].
  unfold receive, future, onShutdown, Future in *.
  rewrite Hf. cbn [mjoin option_join].
  split; [exact Hnone|].
  destruct f as [r|].
  - split; [|split].
    + split; [discriminate|]. intros [id Hid]. apply Hempty in Hid. congruence.
    + discriminate.
    + intros x Hx. now rewrite (sweep_filled _ st h r Hf).
  - destruct (Hcover h Hf) as [id Hid].
    split; [|split].
    + split; [eauto | reflexivity].
    + intros _. now rewrite (Hall id h Hid).
    + discriminate.
Qed.

End Dispatch.

(** C9.  Modelled from the spec.  Take any state the engine reaches and any
    handle that a dispatch of the run returned.  The shutdown notification
    takes as many sweep steps as there are pending entries, N, and leaves no
    entry pending.  The handles on which a receive blocks are exactly those
    of the N pending entries; after the shutdown a receive on such a handle
    returns the connection-closed error, as does every typed [Receive] of
    chain.go on it (shown for the block count and the best block hash); a
    handle that was filled before keeps what it held.  So after the shutdown
    no receive on an issued handle blocks. *)
Theorem C9_shutdown_resolves_pending_handles
    (evs : list dispatch.event) (h : nat) :
  dispatch.issued evs h ->
  dispatch.onShutdown (dispatch.run evs)
  = dispatch.sweep (size (dispatch.pending (dispatch.run evs))) (dispatch.run evs)
  /\ dispatch.pending (dispatch.onShutdown (dispatch.run evs)) = ∅
  /\ (dispatch.receive h (dispatch.run evs) = Blocked
      <-> exists id, dispatch.pending (dispatch.run evs) !! id = Some h)
  /\ (dispatch.receive h (dispatch.run evs) = Blocked ->
      dispatch.receive h (dispatch.onShutdown (dispatch.run evs))
      = Return ([], Some ErrClientShutdown)
      /\ FutureGetBlockCountResult_Receive
           (dispatch.future h (dispatch.onShutdown (dispatch.run evs)))
         = Return (0%Z, Some ErrClientShutdown)
      /\ FutureGetBestBlockHashResult_Receive
           (dispatch.future h (dispatch.onShutdown (dispatch.run evs)))
         = Return (None, Some ErrClientShutdown))
  /\ (forall x, dispatch.receive h (dispatch.run evs) = Return x ->
      dispatch.receive h (dispatch.onShutdown (dispatch.run evs)) = Return x)
  /\ dispatch.receive h (dispatch.onShutdown (dispatch.run evs)) <> Blocked.
Proof.
  intros Hissued.
  destruct (shutdown_receive (dispatch.run evs) h (invariant_run evs)
              (issued_lookup evs h Hissued)) as (Hnone & Hiff & Hclosed & Hkept).
  split; [reflexivity|]. split; [exact Hnone|]. split; [exact Hiff|].
  split; [|split; [exact Hkept|]].
  - intros Hb. unfold dispatch.receive. rewrite (Hclosed Hb).
    split; [reflexivity|]. split; reflexivity.
  - destruct (dispatch.receive h (dispatch.run evs)) as [x| |] eqn:Hr.
    + rewrite (Hkept x eq_refl). discriminate.
    + exfalso. revert Hr. unfold dispatch.receive, receiveFuture.
      destruct (dispatch.future h (dispatch.run evs)); discriminate.
    + unfold dispatch.receive. rewrite (Hclosed eq_refl). discriminate.
Qed.

Lemma C9_shutdown_resolves_pending_handles_witness :
  dispatch.receive 1
    (dispatch.onShutdown
       (dispatch.run [dispatch.Dispatch None; dispatch.Dispatch None;
                      dispatch.Reply 0 (Response [] None)]))
  = Return ([], Some ErrClientShutdown).
Proof.
  refine (proj1 (proj1 (proj2 (proj2 (proj2
    (C9_shutdown_resolves_pending_handles
       [dispatch.Dispatch None; dispatch.Dispatch None;
        dispatch.Reply 0 (Response [] None)] 1 _)))) _)).
  - exists [dispatch.Dispatch None], None, [dispatch.Reply 0%N (Response [] None)].
    split; reflexivity.
  - vm_compute. reflexivity.
Defined.

(** * Further properties of chain.go *)

(** ** Errors and nil results *)

(** Case analysis on each decoding step of a [Receive], leaving the goals. *)
Ltac receive_steps :=
  receive_unfold;
  repeat match goal with
    | |- context [match ?e with Some _ => _ | None => _ end] =>
        is_var e; destruct e
    | |- context [let '(_, _) := ?x in _] => destruct x as [? [?|]]
    | |- context [decide ?P] => destruct (decide P)
    end.

(** X1. An error delivered through the future is returned as it is, with the
    zero value of the result type, by every [Receive]; the payload delivered
    with it is not looked at. *)
Theorem X1_delivered_error_is_returned
    (float64 : Type) (float64_zero : float64)
    (ParseFloat : string -> option float64)
    (MsgBlock : Type) (MsgBlock_zero : MsgBlock)
    (Deserialize : MsgBlock -> list byte -> MsgBlock * option error)
    (GetBlockVerboseResult GetRawMempoolVerboseResult GetTxOutResult : json.StructType)
    (res : list byte) (e : error) :
  let r := Some (Response res (Some e)) in
  FutureGetBestBlockHashResult_Receive r = Return (None, Some e)
  /\ FutureGetBlockResult_Receive MsgBlock_zero Deserialize r = Return (None, Some e)
  /\ FutureGetBlockVerboseResult_Receive GetBlockVerboseResult r
     = Return (None, Some e)
  /\ FutureGetBlockCountResult_Receive r = Return (0%Z, Some e)
  /\ FutureGetDifficultyResult_Receive float64_zero ParseFloat r
     = Return (float64_zero, Some e)
  /\ FutureGetBlockHashResult_Receive r = Return (None, Some e)
  /\ FutureGetRawMempoolResult_Receive r = Return (None, Some e)
  /\ FutureGetRawMempoolVerboseResult_Receive GetRawMempoolVerboseResult r
     = Return (None, Some e)
  /\ FutureVerifyChainResult_Receive r = Return (false, Some e)
  /\ FutureGetTxOutResult_Receive GetTxOutResult r = Return (None, Some e).
Proof.
  cbv zeta. repeat (split; [reflexivity|]). reflexivity.
Qed.

(** For five results, nil is the mark of an error. *)
Definition nilIffError {T : Type} (o : go (option T * option error)) : Prop :=
  forall v e, o = Return (v, e) -> (v = None <-> is_Some e).

Lemma nilIffError_value {T : Type} (x : T) : nilIffError (Return (Some x, None)).
Proof.
  intros v e [= <- <-]. split; [discriminate | intros [? [=]]].
Qed.

Lemma nilIffError_error {T : Type} (e : error) :
  nilIffError (Return (@None T, Some e)).
Proof.
  intros v e' [= <- <-]. split; eauto.
Qed.

Lemma nilIffError_NewHashFromStr (s : string) :
  nilIffError (Return (chainhash.NewHashFromStr s)).
Proof.
  destruct (NewHashFromStr_cases s) as [[h ->]|[e ->]];
    [apply nilIffError_value | apply nilIffError_error].
Qed.

Lemma nilIffError_hashesLoop (strs : list string) acc :
  nilIffError (Return (hashesLoop strs acc)).
Proof.
  destruct (hashesLoop_cases strs acc) as [[h ->]|[e ->]];
    [apply (nilIffError_value (T := list _)) | apply (nilIffError_error (T := list _))].
Qed.

(** X2. The hash, the block, the verbose block and the list of hashes that a
    [Receive] returns is nil exactly when the error is not nil: a caller may
    test either. *)
Theorem X2_nil_result_iff_error
    (MsgBlock : Type) (MsgBlock_zero : MsgBlock)
    (Deserialize : MsgBlock -> list byte -> MsgBlock * option error)
    (GetBlockVerboseResult : json.StructType) (r : response) :
  nilIffError (FutureGetBestBlockHashResult_Receive (Some r))
  /\ nilIffError (FutureGetBlockHashResult_Receive (Some r))
  /\ nilIffError (FutureGetBlockResult_Receive MsgBlock_zero Deserialize (Some r))
  /\ nilIffError (FutureGetBlockVerboseResult_Receive GetBlockVerboseResult (Some r))
  /\ nilIffError (FutureGetRawMempoolResult_Receive (Some r)).
Proof.
  destruct r as [res e].
  split; [|split; [|split; [|split]]]; receive_steps;
    first [ apply nilIffError_NewHashFromStr
          | apply nilIffError_hashesLoop
          | apply nilIffError_value
          | apply nilIffError_error
          | apply (nilIffError_error (T := list _)) ].
Qed.

(** X3. The unspent-output lookup returns the absent result with no error
    exactly when no error was delivered and the payload is the JSON value
    null, written as the bare text or with white space around it. *)
Theorem X3_gettxout_absent_iff_null
    (GetTxOutResult : json.StructType) (r : response) :
  FutureGetTxOutResult_Receive GetTxOutResult (Some r) = Return (None, None)
  <-> (err r = None /\ json.parse (result r) = Some json.Null).
Proof.
  destruct r as [res [e|]]; cbn [err result].
  { split; [discriminate | intros [[=] _]]. }
  receive_unfold.
  destruct (decide (string_of_list_byte res = "null")) as [Heq|_].
  { apply bytes_of_string_eq in Heq. subst res. now rewrite parse_null. }
  rewrite Unmarshal_ptr_struct.
  destruct (json.parse res) as [[| | | | |ms]|].
  1-5, 7: split; [try discriminate; auto | intros [_ [=]]; auto].
  destruct (json.storeFields GetTxOutResult ms (json.struct_zero GetTxOutResult))
    as [v [e|]]; split; try discriminate; intros [_ [=]].
Qed.

(** ** The hash parameter of a command *)

(** The hash parameter of a command: the hash printed, or the empty string
    for a nil hash. *)
Definition hashParam (hash : ptr chainhash.Hash) : string :=
  match hash with
  | Some h => chainhash.String h
  | None => ""
  end.

(** ** JSON string literals *)

(** The characters that stand for themselves in a JSON string literal and
    are ASCII: no control character, quote or backslash. *)
Definition plainChar (c : ascii) : bool :=
  (32 <=? json.code c)%N && (json.code c <? 128)%N
  && negb (Ascii.eqb c "034") && negb (Ascii.eqb c "\").

Definition plainString (s : string) : bool :=
  forallb plainChar (list_ascii_of_string s).

Lemma ascii_of_list_byte_of_string (s : string) :
  map ascii_of_byte (list_byte_of_string s) = list_ascii_of_string s.
Proof.
  unfold list_byte_of_string. rewrite map_map.
  induction (list_ascii_of_string s) as [|c l IH]; [reflexivity|].
  cbn [map]. now rewrite ascii_of_byte_of_ascii, IH.
Qed.

Lemma list_ascii_of_string_app (s t : string) :
  list_ascii_of_string (s +:+ t) = list_ascii_of_string s ++ list_ascii_of_string t.
Proof.
  induction s as [|c s IH]; [reflexivity|].
  simpl. now rewrite IH.
Qed.

(** Inside a string literal a plain character is appended to the token. *)
Lemma scan_plainChar (c : ascii) (ps : list json.frame) (tok : list ascii)
    (top : option json.Value) :
  plainChar c = true ->
  json.scan (json.Scanner json.stateInString ps tok top) c
  = json.Scanner json.stateInString ps (c :: tok) top.
Proof.
  destruct c as [[] [] [] [] [] [] [] []]; intros H;
    first [discriminate H | reflexivity].
Qed.

Lemma scan_plainChars (cs : list ascii) :
  forallb plainChar cs = true ->
  forall ps tok top,
    foldl json.scan (json.Scanner json.stateInString ps tok top) cs
    = json.Scanner json.stateInString ps (rev cs ++ tok) top.
Proof.
  induction cs as [|c cs IH]; intros H ps tok top; [reflexivity|].
  cbn [forallb] in H. apply andb_true_iff in H as [Hc Hcs].
  cbn [foldl]. rewrite (scan_plainChar c ps tok top Hc), (IH Hcs).
  cbn [rev]. now rewrite <- app_assoc.
Qed.

Lemma unquote_plainChar (c : ascii) (rest : list ascii) :
  plainChar c = true -> json.unquote (c :: rest) = c :: json.unquote rest.
Proof.
  destruct c as [[] [] [] [] [] [] [] []]; intros H;
    first [discriminate H | reflexivity].
Qed.

Lemma unquote_plainChars (cs : list ascii) :
  forallb plainChar cs = true -> json.unquote cs = cs.
Proof.
  induction cs as [|c cs IH]; intros H; [reflexivity|].
  cbn [forallb] in H. apply andb_true_iff in H as [Hc Hcs].
  now rewrite (unquote_plainChar c cs Hc), (IH Hcs).
Qed.

(** Scanning the literal of a plain string, in any context that expects a
    value, delivers the string. *)
Lemma scan_quoted (s : string) (st : json.state) (ps : list json.frame) :
  plainString s = true ->
  st = json.stateBeginValue \/ st = json.stateBeginValueOrEmpty ->
  foldl json.scan (json.Scanner st ps [] None)
        ("034"%char :: list_ascii_of_string s ++ ["034"%char])
  = json.emit (json.Str s) (json.Scanner json.stateInString ps [] None).
Proof.
  intros Hs Hst. cbn [foldl].
  assert (Hopen : json.scan (json.Scanner st ps [] None) "034"
                  = json.Scanner json.stateInString ps [] None).
  { destruct Hst as [-> | ->]; reflexivity. }
  rewrite Hopen, foldl_app, (scan_plainChars _ Hs). cbn [foldl].
  rewrite app_nil_r.
  change (json.scan (json.Scanner json.stateInString ps (rev (list_ascii_of_string s)) None) "034")
    with (json.emit (json.Str (json.unquoteString (rev (rev (list_ascii_of_string s)))))
            (json.Scanner json.stateInString ps (rev (list_ascii_of_string s)) None)).
  rewrite rev_involutive. unfold json.unquoteString.
  rewrite (unquote_plainChars _ Hs), string_of_list_ascii_of_string.
  unfold json.emit. cbn [json.parseState]. reflexivity.
Qed.

Lemma parse_quoted (s : string) :
  plainString s = true -> json.parse (example.quoted s) = Some (json.Str s).
Proof.
  intros Hs. unfold json.parse, example.quoted.
  rewrite ascii_of_list_byte_of_string.
  change (list_ascii_of_string (String "034" (s +:+ String "034" "")))
    with ("034"%char :: list_ascii_of_string (s +:+ String "034" "")).
  rewrite list_ascii_of_string_app.
  change (list_ascii_of_string (String "034" "")) with ["034"%char].
  unfold json.reset. rewrite (scan_quoted s _ [] Hs (or_introl eq_refl)).
  reflexivity.
Qed.

(** ** Hexadecimal round trip *)

Lemma decodeLoop_encodeByte (v : byte) (rest dst : list byte) (i : nat) :
  hex.decodeLoop i (hex.encodeByte v ++ rest) dst
  = hex.decodeLoop (S i) rest (<[i := v]> dst).
Proof. destruct v; reflexivity. Qed.

Lemma length_encode (bs : list byte) :
  length (concat (map hex.encodeByte bs)) = 2 * length bs.
Proof.
  induction bs as [|v bs IH]; [reflexivity|].
  cbn [map concat]. rewrite length_app, IH. cbn [hex.encodeByte length]. lia.
Qed.

Lemma decodeLoop_encode (bs : list byte) :
  forall i dst, length dst = i + length bs ->
    hex.decodeLoop i (concat (map hex.encodeByte bs)) dst = (take i dst ++ bs, None).
Proof.
  induction bs as [|v bs IH]; intros i dst Hlen.
  - cbn [map concat hex.decodeLoop]. cbn [length] in Hlen.
    rewrite app_nil_r, take_ge by lia. reflexivity.
  - cbn [map concat]. cbn [length] in Hlen.
    rewrite decodeLoop_encodeByte, IH by (rewrite length_insert; lia).
    rewrite (take_S_r _ i v) by (apply list_lookup_insert_eq; lia).
    rewrite take_insert_ge by lia. now rewrite <- app_assoc.
Qed.

(** Decoding the hex of [bs] into a destination of its length gives [bs]. *)
Lemma Decode_encode (bs dst : list byte) :
  length dst = length bs ->
  hex.Decode dst (concat (map hex.encodeByte bs)) = (bs, (length bs, None)).
Proof.
  intros Hlen. unfold hex.Decode.
  rewrite length_encode, Nat.odd_mul. cbn [Nat.odd andb].
  rewrite decodeLoop_encode by exact Hlen. cbn [take app].
  do 2 f_equal. rewrite Nat.mul_comm. now rewrite Nat.div_mul.
Qed.

Lemma DecodeString_EncodeToString (bs : list byte) :
  hex.DecodeString (hex.EncodeToString bs) = (bs, None).
Proof.
  unfold hex.DecodeString, hex.EncodeToString.
  rewrite list_byte_of_string_of_list_byte, Decode_encode; [reflexivity|].
  rewrite length_replicate, length_encode. unfold hex.DecodedLen.
  rewrite Nat.mul_comm. now rewrite Nat.div_mul.
Qed.

(** The hex of any bytes is a plain string. *)
Lemma plainString_EncodeToString (bs : list byte) :
  plainString (hex.EncodeToString bs) = true.
Proof.
  unfold plainString, hex.EncodeToString.
  rewrite <- ascii_of_list_byte_of_string, list_byte_of_string_of_list_byte.
  induction bs as [|v bs IH]; [reflexivity|].
  cbn [map concat]. rewrite map_app, forallb_app, IH, andb_true_r.
  destruct v; reflexivity.
Qed.

(** X6. The raw-block decode hands the deserializer exactly the bytes whose
    hex the server sent: on the JSON string of the hex of [bs], it returns
    the block that [Deserialize] makes of [bs], or its error with no
    block. *)
Theorem X6_getblock_decodes_hex_payload
    (MsgBlock : Type) (MsgBlock_zero : MsgBlock)
    (Deserialize : MsgBlock -> list byte -> MsgBlock * option error)
    (bs : list byte) :
  FutureGetBlockResult_Receive MsgBlock_zero Deserialize
    (delivered (example.quoted (hex.EncodeToString bs)))
  = Return match Deserialize MsgBlock_zero bs with
           | (_, Some e) => (None, Some e)
           | (m, None) => (Some (NewBlock m), None)
           end.
Proof.
  receive_unfold. unfold json.Unmarshal.
  rewrite (parse_quoted _ (plainString_EncodeToString bs)).
  cbn [json.store json.string_GoType].
  rewrite DecodeString_EncodeToString.
  destruct (Deserialize MsgBlock_zero bs) as [m [e|]]; reflexivity.
Qed.

(** ** Hashes *)

Lemma length_store2 (a : chainhash.Hash) (i j : nat) (x y : byte) :
  length (chainhash.store2 a i j x y) = length a.
Proof.
  unfold chainhash.store2, chainhash.Hash in *. now rewrite !length_insert.
Qed.

Lemma length_reverseCopy (dst src : chainhash.Hash) :
  length (chainhash.reverseCopy dst src) = length dst.
Proof.
  unfold chainhash.reverseCopy.
  generalize (seq 0 (chainhash.HashSize / 2)). intros l. revert dst.
  induction l as [|i l IH]; intros dst; [reflexivity|].
  cbn [foldl]. now rewrite IH, length_store2.
Qed.

(** A hash made by [NewHashFromStr] has [HashSize] bytes. *)
Lemma length_NewHashFromStr (s : string) (h : chainhash.Hash) (e : option error) :
  chainhash.NewHashFromStr s = (Some h, e) -> length h = chainhash.HashSize.
Proof.
  unfold chainhash.NewHashFromStr, chainhash.Decode.
  destruct (_ <? _)%nat; [discriminate|].
  destruct (hex.Decode _ _) as [tl [n [e'|]]]; [discriminate|].
  intros [= <- _]. now rewrite length_reverseCopy.
Qed.

Lemma hashesLoop_elements (strs : list string) :
  forall acc hs e,
    Forall (fun p => exists h, p = Some h /\ length h = chainhash.HashSize) acc ->
    hashesLoop strs acc = (Some hs, e) ->
    Forall (fun p => exists h, p = Some h /\ length h = chainhash.HashSize) hs.
Proof.
  induction strs as [|s strs IH]; intros acc hs e Hacc; cbn [hashesLoop].
  - now intros [= <- _].
  - destruct (chainhash.NewHashFromStr s) as [h [e'|]] eqn:Hs; [discriminate|].
    apply IH. apply Forall_app. split; [exact Hacc|].
    constructor; [|constructor].
    destruct h as [h|].
    + exists h. split; [reflexivity|]. eapply length_NewHashFromStr, Hs.
    + destruct (NewHashFromStr_cases s) as [[h Hh]|[e0 He0]]; congruence.
Qed.

(** X7. Every hash that a [Receive] returns has exactly 32 bytes, and the
    list of hashes of the memory pool holds no nil pointer. *)
Theorem X7_returned_hashes_have_32_bytes (r : response) :
  (forall h e, FutureGetBestBlockHashResult_Receive (Some r) = Return (Some h, e) ->
               length h = 32)
  /\ (forall h e, FutureGetBlockHashResult_Receive (Some r) = Return (Some h, e) ->
               length h = 32)
  /\ (forall hs e, FutureGetRawMempoolResult_Receive (Some r) = Return (Some hs, e) ->
               Forall (fun p => exists h, p = Some h /\ length h = 32) hs).
Proof.
  destruct r as [res e0].
  split; [|split]; intros x e; receive_steps; try discriminate.
  - intros [= H]. eapply length_NewHashFromStr, H.
  - intros [= H]. eapply length_NewHashFromStr, H.
  - intros [= H]. eapply hashesLoop_elements, H. constructor.
Qed.

Lemma X7_returned_hashes_have_32_bytes_witness :
  exists h, FutureGetBestBlockHashResult_Receive (delivered (example.quoted "0aab"))
            = Return (Some h, None) /\ length h = 32.
Proof.
  eexists. split; [reflexivity|].
  eapply (proj1 (X7_returned_hashes_have_32_bytes
                   (Response (example.quoted "0aab") None))).
  reflexivity.
Defined.

(** A list with 32 elements, spelled out. *)
Ltac spell_out h :=
  do 32 (destruct h as [|? h]; [discriminate|]);
  destruct h; [|discriminate].

Lemma reverseCopy_rev (src : chainhash.Hash) :
  length src = 32 -> chainhash.reverseCopy chainhash.newHash src = rev src.
Proof. intros H. spell_out src. reflexivity. Qed.

Lemma String_rev (h : chainhash.Hash) :
  length h = 32 -> chainhash.String h = hex.EncodeToString (rev h).
Proof. intros H. spell_out h. reflexivity. Qed.

(** Parsing the printed form of a hash gives the hash back. *)
Lemma NewHashFromStr_String (h : chainhash.Hash) :
  length h = 32 -> chainhash.NewHashFromStr (chainhash.String h) = (Some h, None).
Proof.
  intros Hlen. rewrite (String_rev h Hlen).
  assert (Hrev : length (rev h) = 32) by now rewrite length_rev.
  unfold chainhash.NewHashFromStr, chainhash.Decode, hex.EncodeToString.
  rewrite <- length_list_byte_of_string, list_byte_of_string_of_list_byte.
  rewrite length_encode, Hrev.
  change (chainhash.MaxHashStringSize <? 2 * 32)%nat with false.
  change (Nat.even (2 * 32)) with true. cbv iota.
  unfold hex.DecodedLen. rewrite length_encode, Hrev.
  change (chainhash.HashSize - 2 * 32 / 2) with 0.
  rewrite drop_0, take_0.
  rewrite (Decode_encode (rev h) chainhash.newHash) by now rewrite Hrev.
  cbn [app]. rewrite (reverseCopy_rev _ Hrev), rev_involutive. reflexivity.
Qed.

Lemma plainString_String (h : chainhash.Hash) :
  length h = 32 -> plainString (chainhash.String h) = true.
Proof.
  intros Hlen. rewrite (String_rev h Hlen). apply plainString_EncodeToString.
Qed.

(** X8. A hash survives the round trip through the API: an Async function
    sends the printed form of the hash, and a reply that is the JSON string
    of that printed form is received as the same hash, with no error. *)
Theorem X8_hash_round_trip
    (Client : Type) (sendCmd : Client -> btcjson.Cmd -> Future) (c : Client)
    (h : chainhash.Hash) :
  length h = 32 ->
  GetBlockAsync sendCmd c (Some h)
    = Return (sendCmd c (btcjson.GetBlockCmd (chainhash.String h) (Some false) None))
  /\ FutureGetBestBlockHashResult_Receive
       (delivered (example.quoted (chainhash.String h))) = Return (Some h, None)
  /\ FutureGetBlockHashResult_Receive
       (delivered (example.quoted (chainhash.String h))) = Return (Some h, None).
Proof.
  intros Hlen. split; [reflexivity|].
  split; receive_unfold; unfold json.Unmarshal;
    rewrite (parse_quoted _ (plainString_String h Hlen));
    cbn [json.store json.string_GoType];
    now rewrite (NewHashFromStr_String h Hlen).
Qed.

Lemma X8_hash_round_trip_witness :
  FutureGetBestBlockHashResult_Receive
    (delivered (example.quoted (chainhash.String chainhash.newHash)))
  = Return (Some chainhash.newHash, None).
Proof.
  exact (proj1 (proj2 (X8_hash_round_trip unit (fun _ _ => None) tt
                         chainhash.newHash eq_refl))).
Defined.

(** ** A list of hashes *)

(** The JSON text of an array of plain strings, as a server writes it. *)
Definition quotedChars (s : string) : list ascii :=
  "034"%char :: list_ascii_of_string s ++ ["034"%char].

Fixpoint elementsChars (strs : list string) : list ascii :=
  match strs with
  | [] => []
  | [s] => quotedChars s
  | s :: rest => quotedChars s ++ ","%char :: elementsChars rest
  end.

Definition jsonStrings (strs : list string) : list byte :=
  map byte_of_ascii ("["%char :: elementsChars strs ++ ["]"%char]).

Lemma scan_elements (strs : list string) :
  Forall (fun s => plainString s = true) strs -> strs <> [] ->
  forall st es,
    st = json.stateBeginValue \/ st = json.stateBeginValueOrEmpty ->
    foldl json.scan (json.Scanner st [json.parseArrayValue es] [] None)
          (elementsChars strs)
    = json.Scanner json.stateEndValue
        [json.parseArrayValue (rev (json.Str <$> strs) ++ es)] [] None.
Proof.
  induction 1 as [|s strs Hs Hstrs IH]; intros Hne st es Hst; [congruence|].
  destruct strs as [|s' rest].
  - cbn [elementsChars]. unfold quotedChars.
    rewrite (scan_quoted s st _ Hs Hst). reflexivity.
  - change (elementsChars (s :: s' :: rest))
      with (quotedChars s ++ ","%char :: elementsChars (s' :: rest)).
    rewrite foldl_app. unfold quotedChars at 1.
    rewrite (scan_quoted s st _ Hs Hst). cbn [foldl].
    change (json.scan
              (json.emit (json.Str s)
                 (json.Scanner json.stateInString [json.parseArrayValue es] [] None)) ",")
      with (json.Scanner json.stateBeginValue
              [json.parseArrayValue (json.Str s :: es)] [] None).
    rewrite IH by (discriminate || now left).
    change (json.Str <$> s :: s' :: rest)
      with (json.Str s :: (json.Str <$> s' :: rest)).
    cbn [rev]. now rewrite <- app_assoc.
Qed.

Lemma parse_jsonStrings (strs : list string) :
  Forall (fun s => plainString s = true) strs ->
  json.parse (jsonStrings strs) = Some (json.Array (json.Str <$> strs)).
Proof.
  intros Hall. unfold json.parse, jsonStrings.
  rewrite map_map, (map_ext _ id), map_id
    by (intros c; apply ascii_of_byte_of_ascii).
  cbn [foldl]. rewrite foldl_app.
  destruct strs as [|s strs]; [reflexivity|].
  change (json.scan json.reset "[")
    with (json.Scanner json.stateBeginValueOrEmpty [json.parseArrayValue []] [] None).
  rewrite (scan_elements (s :: strs) Hall) by (discriminate || now right).
  rewrite app_nil_r. cbn [foldl].
  unfold json.scan, json.doEndValue. cbn [json.step json.parseState json.isSpace].
  unfold json.popParseState, json.emit, json.eof, json.goto.
  cbn [json.step json.parseState json.top json.tok]. now rewrite rev_involutive.
Qed.

(** X9. The list of hashes survives the round trip: on the JSON array of
    the printed forms of the hashes [hs], the list-of-hashes decode returns
    exactly [hs], in order, with no error. *)
Theorem X9_rawmempool_round_trip (hs : list chainhash.Hash) :
  Forall (fun h => length h = 32) hs ->
  FutureGetRawMempoolResult_Receive
    (delivered (jsonStrings (chainhash.String <$> hs)))
  = Return (Some (Some <$> hs), None).
Proof.
  intros Hall. receive_unfold.
  rewrite (Unmarshal_strings _ (chainhash.String <$> hs)).
  - cbn [default from_option id].
    rewrite <- (app_nil_r (chainhash.String <$> hs)), (hashesLoop_app _ hs).
    + reflexivity.
    + induction Hall as [|h hs Hh _ IH]; constructor;
        [now apply NewHashFromStr_String | exact IH].
  - apply parse_jsonStrings.
    induction Hall as [|h hs Hh _ IH]; constructor;
      [now apply plainString_String | exact IH].
Qed.

Lemma X9_rawmempool_round_trip_witness :
  FutureGetRawMempoolResult_Receive
    (delivered (jsonStrings (chainhash.String <$>
       [chainhash.newHash; "001"%byte :: replicate 31 "000"%byte])))
  = Return (Some [Some chainhash.newHash;
                  Some ("001"%byte :: replicate 31 "000"%byte)], None).
Proof.
  apply (X9_rawmempool_round_trip
           [chainhash.newHash; "001"%byte :: replicate 31 "000"%byte]).
  repeat constructor.
Defined.

(** ** The printed form of a decoded hash *)

(** A hex digit in lower case. *)
Definition lowerHex (c : byte) : byte :=
  let n := Byte.to_N c in
  if (65 <=? n)%N && (n <=? 70)%N then default c (Byte.of_N (n + 32)) else c.

Lemma encodeByte_nibbles (a b : byte) (x y : N) :
  hex.fromHexChar a = Some x -> hex.fromHexChar b = Some y ->
  hex.encodeByte (hex.nibbles x y) = [lowerHex a; lowerHex b].
Proof.
  destruct a; intros [= <-]; destruct b; intros [= <-]; reflexivity.
Qed.

(** Decoding hex digits and encoding the bytes again gives the digits in
    lower case. *)
Lemma decodeLoop_valid (src : list byte) :
  Nat.even (length src) = true -> forallb hexByte src = true ->
  forall i dst, length dst = i + length src / 2 ->
    exists dec,
      hex.decodeLoop i src dst = (take i dst ++ dec, None)
      /\ concat (map hex.encodeByte dec) = map lowerHex src.
Proof.
  induction src as [|a|a b rest IH] using pairs_ind; intros Heven Hvalid i dst Hlen.
  - exists []. cbn in Hlen. cbn [hex.decodeLoop].
    rewrite app_nil_r, take_ge by lia. auto.
  - discriminate Heven.
  - cbn [forallb] in Hvalid. unfold hexByte at 1 2 in Hvalid.
    apply andb_true_iff in Hvalid as [Ha Hvalid].
    apply andb_true_iff in Hvalid as [Hb Hvalid].
    apply bool_decide_eq_true in Ha as [x Hx], Hb as [y Hy].
    cbn [hex.decodeLoop]. rewrite Hx, Hy.
    change (length (a :: b :: rest)) with (2 + length rest) in Hlen.
    replace (2 + length rest) with (length rest + 1 * 2) in Hlen by lia.
    rewrite Nat.div_add in Hlen by lia.
    destruct (IH Heven Hvalid (S i) (<[i := hex.nibbles x y]> dst)) as (dec & Hdec & Henc).
    { rewrite length_insert. lia. }
    exists (hex.nibbles x y :: dec). split.
    + rewrite Hdec, (take_S_r _ i (hex.nibbles x y))
        by (apply list_lookup_insert_eq; lia).
      rewrite take_insert_ge by lia. now rewrite <- app_assoc.
    + cbn [map concat]. rewrite Henc, (encodeByte_nibbles a b x y Hx Hy).
      reflexivity.
Qed.

Lemma encode_zeros (k : nat) :
  concat (map hex.encodeByte (replicate k x00)) = replicate (2 * k) "0"%byte.
Proof.
  induction k as [|k IH]; [reflexivity|].
  replace (2 * S k) with (S (S (2 * k))) by lia.
  cbn [replicate map concat]. now rewrite IH.
Qed.

(** A hash decoded from a string prints as that string in lower case, padded
    with zeros on the left to 64 digits. *)
Lemma String_NewHashFromStr (s : string) (h : chainhash.Hash)
    (e : option error) :
  chainhash.NewHashFromStr s = (Some h, e) ->
  list_byte_of_string (chainhash.String h)
  = replicate (64 - String.length s) "0"%byte ++ map lowerHex (list_byte_of_string s).
Proof.
  intros Hnew.
  assert (Hlen32 : length h = 32) by (eapply length_NewHashFromStr, Hnew).
  assert (Hok : (chainhash.Decode chainhash.newHash s).2 = None).
  { unfold chainhash.NewHashFromStr in Hnew.
    destruct (chainhash.Decode chainhash.newHash s) as [h' [e'|]];
      [discriminate | reflexivity]. }
  apply chainhash_Decode_error in Hok as [Hshort Hvalid].
  unfold isHexString in Hvalid.
  rewrite (String_rev h Hlen32). unfold hex.EncodeToString.
  rewrite list_byte_of_string_of_list_byte.
  revert Hnew. unfold chainhash.NewHashFromStr, chainhash.Decode.
  change chainhash.MaxHashStringSize with 64.
  destruct (Nat.ltb_spec 64 (String.length s)) as [?|_]; [lia|].
  set (srcBytes := if Nat.even (String.length s) then _ else _).
  assert (Heven : Nat.even (length srcBytes) = true).
  { subst srcBytes. destruct (Nat.even (String.length s)) eqn:E.
    - now rewrite length_list_byte_of_string.
    - simpl length. rewrite length_list_byte_of_string, Nat.even_succ,
        <- Nat.negb_even, E. reflexivity. }
  assert (Hsrc : forallb hexByte srcBytes = true).
  { subst srcBytes. destruct (Nat.even (String.length s)); [exact Hvalid|].
    cbn [forallb]. now rewrite Hvalid. }
  assert (Hpad : replicate (64 - length srcBytes) "0"%byte ++ map lowerHex srcBytes
                 = replicate (64 - String.length s) "0"%byte
                   ++ map lowerHex (list_byte_of_string s)).
  { subst srcBytes. destruct (Nat.even (String.length s)) eqn:E.
    - now rewrite length_list_byte_of_string.
    - cbn [length map]. rewrite length_list_byte_of_string.
      assert (String.length s <> 64).
      { intros H64. rewrite H64 in E. discriminate E. }
      replace (64 - String.length s) with (S (64 - S (String.length s))) by lia.
      rewrite replicate_S_end, <- app_assoc. reflexivity. }
  assert (Hsrclen : length srcBytes <= 64).
  { subst srcBytes. destruct (Nat.even (String.length s)) eqn:E.
    - now rewrite length_list_byte_of_string.
    - cbn [length]. rewrite length_list_byte_of_string.
      assert (String.length s <> 64); [|lia].
      intros H64. rewrite H64 in E. discriminate E. }
  clearbody srcBytes. rewrite <- Hpad. clear Hpad Hvalid Hshort.
  unfold hex.DecodedLen, hex.Decode. rewrite <- Nat.negb_even, Heven. cbn [negb].
  set (n := length srcBytes / 2).
  assert (Hn : length srcBytes = 2 * n).
  { subst n. apply Nat.even_spec in Heven as [m ->].
    rewrite Nat.mul_comm, Nat.div_mul by lia. lia. }
  destruct (decodeLoop_valid srcBytes Heven Hsrc 0
              (drop (chainhash.HashSize - n) chainhash.newHash))
    as (dec & Hdec & Henc).
  { rewrite length_drop. unfold chainhash.newHash. rewrite length_replicate.
    change chainhash.HashSize with 32. fold n. lia. }
  rewrite Hdec. cbn [take app].
  assert (Hdeclen : length dec = n).
  { apply (f_equal length) in Henc. rewrite length_encode, length_map in Henc. lia. }
  intros [= <- _].
  rewrite reverseCopy_rev, rev_involutive.
  - rewrite map_app, concat_app, Henc. f_equal.
    unfold chainhash.newHash. rewrite take_replicate, encode_zeros.
    change chainhash.HashSize with 32. f_equal. lia.
  - rewrite length_app, length_take. unfold chainhash.newHash.
    rewrite length_replicate. change chainhash.HashSize with 32. lia.
Qed.

(** X10. The hash received for a reply string prints as that string in
    lower case, padded with zeros on the left to 64 digits; this printed form
    is what an Async function sends for the hash.  So a reply may leave out
    leading zeros, and the case of its digits does not matter. *)
Theorem X10_received_hash_prints_padded (s : string) (h : chainhash.Hash)
    (e : option error) :
  plainString s = true ->
  FutureGetBestBlockHashResult_Receive (delivered (example.quoted s))
    = Return (Some h, e) ->
  list_byte_of_string (hashParam (Some h))
  = replicate (64 - String.length s) "0"%byte ++ map lowerHex (list_byte_of_string s).
Proof.
  intros Hplain. receive_unfold. unfold json.Unmarshal.
  rewrite (parse_quoted s Hplain). cbn [json.store json.string_GoType hashParam].
  intros [= Hnew]. exact (String_NewHashFromStr s h e Hnew).
Qed.

Lemma X10_received_hash_prints_padded_witness :
  exists h,
    FutureGetBestBlockHashResult_Receive (delivered (example.quoted "0Ab"))
      = Return (Some h, None)
    /\ hashParam (Some h)
       = "00000000000000000000000000000000000000000000000000000000000000ab".
Proof.
  eexists. split; [reflexivity|].
  rewrite <- (string_of_list_byte_of_string (hashParam _)).
  rewrite (X10_received_hash_prints_padded "0Ab" _ None eq_refl eq_refl).
  reflexivity.
Defined.

(** ** Objects *)

Set Warnings "-clear-no-such-hyp".

Lemma storeFields_unknown (S : json.StructType) (ms : list (string * json.Value)) :
  Forall (fun m => json.struct_field S m.1 = None) ms ->
  forall v, json.storeFields S ms v = (v, None).
Proof.
  induction 1 as [|[k j] ms Hk _ IH]; intros v; [reflexivity|].
  cbn [json.storeFields]. cbn [fst] in Hk. now rewrite Hk, IH.
Qed.

(** X11. Members of the reply that name no field of the result are skipped:
    when the payload of the unspent-output lookup is an object none of whose
    keys selects a field, the result is present, with every field at its zero
    value, and there is no error. *)
Theorem X11_gettxout_skips_unknown_members
    (GetTxOutResult : json.StructType) (res : list byte)
    (ms : list (string * json.Value)) :
  json.parse res = Some (json.Object ms) ->
  Forall (fun m => json.struct_field GetTxOutResult m.1 = None) ms ->
  FutureGetTxOutResult_Receive GetTxOutResult (delivered res)
  = Return (Some (json.struct_zero GetTxOutResult), None).
Proof.
  intros Hparse Hunknown. receive_unfold.
  destruct (decide (string_of_list_byte res = "null")) as [Heq|_].
  { apply bytes_of_string_eq in Heq. subst res.
    rewrite parse_null in Hparse. discriminate. }
  rewrite Unmarshal_ptr_struct, Hparse.
  now rewrite (storeFields_unknown _ ms Hunknown).
Qed.

Lemma X11_gettxout_skips_unknown_members_witness :
  FutureGetTxOutResult_Receive example.GetTxOutResult
    (delivered (bytes "{" ++ example.quoted "txid" ++ bytes ": 7, "
                ++ example.quoted "n" ++ bytes ": [true]}"))
  = Return (Some (json.struct_zero example.GetTxOutResult), None).
Proof.
  apply (X11_gettxout_skips_unknown_members example.GetTxOutResult _
           [("txid", json.Number "7"); ("n", json.Array [json.Bool true])]).
  - vm_compute. reflexivity.
  - repeat constructor.
Defined.

Lemma storeMembers_dom {T : Type} `{json.GoType T} (ms : list (string * json.Value)) :
  forall m : gmap string T,
    dom (json.storeMembers ms m).1 = dom m ∪ list_to_set ms.*1.
Proof.
  induction ms as [|[k j] ms IH]; intros m.
  - cbn. set_solver.
  - cbn [json.storeMembers].
    destruct (json.store j json.zero) as [x e1].
    specialize (IH (<[k := x]> m)).
    destruct (json.storeMembers ms (<[k := x]> m)) as [m' e2].
    cbn [fst] in *. rewrite IH, dom_insert_L. cbn [fmap list_fmap list_to_set fst].
    set_solver.
Qed.

(** X12. The map that the verbose memory-pool decode returns has exactly
    the keys of the reply object. *)
Theorem X12_rawmempool_verbose_keys
    (GetRawMempoolVerboseResult : json.StructType) (res : list byte)
    (ms : list (string * json.Value))
    (m : gmap string (json.carrier GetRawMempoolVerboseResult))
    (e : option error) :
  json.parse res = Some (json.Object ms) ->
  FutureGetRawMempoolVerboseResult_Receive GetRawMempoolVerboseResult (delivered res)
    = Return (Some m, e) ->
  dom m = list_to_set ms.*1.
Proof.
  intros Hparse. receive_unfold. unfold json.Unmarshal. rewrite Hparse.
  cbn [json.store json.gomap_GoType json.zero default from_option id].
  pose proof (storeMembers_dom (T := json.carrier GetRawMempoolVerboseResult) ms ∅) as Hdom.
  destruct (json.storeMembers ms ∅) as [m' [e'|]]; [discriminate|].
  intros [= <- _]. cbn [fst] in Hdom. rewrite Hdom. set_solver.
Qed.

Lemma X12_rawmempool_verbose_keys_witness :
  exists m,
    FutureGetRawMempoolVerboseResult_Receive example.GetTxOutResult
      (delivered (bytes "{" ++ example.quoted "ab" ++ bytes ": {}, "
                  ++ example.quoted "cd" ++ bytes ": {}}"))
    = Return (Some m, None)
    /\ dom m = {["ab"; "cd"]}.
Proof.
  eexists. split; [vm_compute; reflexivity|].
  rewrite (X12_rawmempool_verbose_keys example.GetTxOutResult
             (bytes "{" ++ example.quoted "ab" ++ bytes ": {}, "
              ++ example.quoted "cd" ++ bytes ": {}}")
             [("ab", json.Object []); ("cd", json.Object [])] _ None).
  - cbn. set_solver.
  - vm_compute. reflexivity.
  - vm_compute. reflexivity.
Defined.

(** ** Chain verification *)

(** X13. Chain verification reports success only when the server said so:
    the result is true exactly when no error was delivered and the payload
    is the JSON value true, and then there is no error. *)
Theorem X13_verifychain_true_iff_payload_true (r : response) (e : option error) :
  FutureVerifyChainResult_Receive (Some r) = Return (true, e)
  <-> (err r = None /\ json.parse (result r) = Some (json.Bool true) /\ e = None).
Proof.
  destruct r as [res [e0|]]; cbn [err result]; receive_unfold.
  { split; [discriminate | intros [[=] _]]. }
  unfold json.Unmarshal. destruct (json.parse res) as [j|].
  - destruct j as [|[]| | | |];
      cbn [json.store json.bool_GoType json.typeError json.zero];
      (split;
       [ intros H; try discriminate H; injection H as <-; auto
       | intros (_ & Hp & ->); try discriminate Hp; reflexivity ]).
  - split; [discriminate | intros (_ & [=] & _)].
Qed.

(** ** The block count in decimal *)

(** [strconv.FormatInt(n, 10)]: the decimal form of an integer, as a JSON
    encoder writes it. *)
Definition FormatInt (n : Z) : string :=
  DecimalString.NilZero.string_of_int (Z.to_int n).

(** The characters of a sequence of decimal digits. *)
Definition digitChars (d : Decimal.uint) : list ascii :=
  list_ascii_of_string (DecimalString.NilEmpty.string_of_uint d).

Lemma digitChars_isDigit (d : Decimal.uint) :
  forallb json.isDigit (digitChars d) = true.
Proof.
  unfold digitChars. induction d; cbn; auto.
Qed.

Lemma of_uint_acc_value (d : Decimal.uint) :
  forall acc : positive,
    Z.pos (Pos.of_uint_acc d acc)
    = (Z.pos acc * 10 ^ Z.of_nat (Decimal.nb_digits d) + Z.of_N (Pos.of_uint d))%Z.
Proof.
  induction d as [|d IH|d IH|d IH|d IH|d IH|d IH|d IH|d IH|d IH|d IH]; intros acc;
    cbn [Pos.of_uint_acc Pos.of_uint Decimal.nb_digits];
    [cbn; lia|..];
    rewrite Nat2Z.inj_succ, Z.pow_succ_r by lia;
    rewrite ?N2Z.inj_pos, IH; try rewrite (IH 1%positive);
    try rewrite (IH 2%positive); try rewrite (IH 3%positive);
    try rewrite (IH 4%positive); try rewrite (IH 5%positive);
    try rewrite (IH 6%positive); try rewrite (IH 7%positive);
    try rewrite (IH 8%positive); try rewrite (IH 9%positive); lia.
Qed.

(** [digitsValue] computes the number the digits denote. *)
Lemma digitsValue_digitChars (d : Decimal.uint) :
  forall acc : Z,
    json.digitsValue acc (digitChars d)
    = Some (acc * 10 ^ Z.of_nat (Decimal.nb_digits d) + Z.of_N (Pos.of_uint d))%Z.
Proof.
  unfold digitChars.
  induction d as [|d IH|d IH|d IH|d IH|d IH|d IH|d IH|d IH|d IH|d IH]; intros acc;
    cbn [DecimalString.NilEmpty.string_of_uint list_ascii_of_string
         json.digitsValue Pos.of_uint Decimal.nb_digits];
    [f_equal; cbn; lia|..];
    change (json.isDigit _) with true; cbv iota;
    rewrite IH, Nat2Z.inj_succ, Z.pow_succ_r by lia;
    rewrite ?N2Z.inj_pos, ?of_uint_acc_value; f_equal; cbn; lia.
Qed.

(** A sequence of digits that starts with a digit other than zero. *)
Definition nonzeroHead (d : Decimal.uint) : bool :=
  match d with
  | Decimal.Nil | Decimal.D0 _ => false
  | _ => true
  end.

(** The decimal form of a positive number has no leading zero. *)
Lemma to_uint_nonzeroHead (p : positive) : nonzeroHead (Pos.to_uint p) = true.
Proof.
  pose proof (DecimalPos.Unsigned.to_of (Pos.to_uint p)) as Hnorm.
  rewrite DecimalPos.Unsigned.of_to in Hnorm. cbn [N.to_uint] in Hnorm.
  pose proof (DecimalPos.Unsigned.to_uint_nonzero p) as Hnz.
  destruct (Pos.to_uint p) as [|d| | | | | | | | | ]; try reflexivity.
  - discriminate Hnorm.
  - exfalso. unfold Decimal.unorm in Hnorm.
    rewrite DecimalFacts.nzhead_D0 in Hnorm.
    destruct (Decimal.nzhead d) eqn:Hd; try discriminate Hnorm.
    + now apply Hnz.
    + symmetry in Hnorm. rewrite <- Hd in Hnorm.
      now apply DecimalFacts.nzhead_nonzero in Hnorm.
Qed.

(** In a number, the scanner collects digits. *)
Lemma scan_digits (cs : list ascii) :
  forall (ps : list json.frame) (tok : list ascii) (top : option json.Value),
    forallb json.isDigit cs = true ->
    foldl json.scan (json.Scanner json.state1 ps tok top) cs
    = json.Scanner json.state1 ps (rev cs ++ tok) top.
Proof.
  induction cs as [|c cs IH]; intros ps tok top Hcs; [reflexivity|].
  cbn [forallb] in Hcs. apply andb_true_iff in Hcs as [Hc Hcs].
  cbn [foldl]. unfold json.scan at 2. cbn [json.step]. rewrite Hc.
  unfold json.shift. cbn [json.parseState json.tok json.top].
  rewrite (IH _ _ _ Hcs). cbn [rev]. now rewrite <- app_assoc.
Qed.

(** The scanner reads an optional minus sign and digits without a leading
    zero as the number with that literal. *)
Lemma parse_decimal (neg : bool) (d : Decimal.uint) :
  nonzeroHead d = true ->
  json.eof (foldl json.scan json.reset
              ((if neg then ["-"%char] else []) ++ digitChars d))
  = Some (json.Number
            (string_of_list_ascii
               ((if neg then ["-"%char] else []) ++ digitChars d))).
Proof.
  intros Hd. pose proof (digitChars_isDigit d) as Hds. unfold digitChars in *.
  destruct d as [|d|d|d|d|d|d|d|d|d|d]; try discriminate Hd;
    cbn [DecimalString.NilEmpty.string_of_uint list_ascii_of_string forallb] in *;
    apply andb_true_iff in Hds as [_ Hds];
    destruct neg; cbn [app foldl];
    match goal with
    | |- context [foldl json.scan ?s (list_ascii_of_string ?t)] =>
        let s' := eval cbv in s in
        change s with s'
    end;
    rewrite (scan_digits _ _ _ _ Hds);
    unfold json.eof; cbn [json.step json.top];
    unfold json.scan; cbn [json.step];
    change (json.isDigit " ") with false; cbv iota;
    unfold json.do0, json.endNumber, json.emit; cbn [json.parseState json.tok];
    unfold json.doEndValue; cbn [json.parseState];
    unfold json.doEndTop, json.goto; cbn [json.isSpace json.step json.top];
    rewrite rev_app_distr, rev_involutive; reflexivity.
Qed.

(** [strconv.ParseInt] on such a literal: the number it denotes, when an
    int64 holds it. *)
Lemma ParseInt_decimal (neg : bool) (d : Decimal.uint) :
  nonzeroHead d = true ->
  json.ParseInt
    (string_of_list_ascii ((if neg then ["-"%char] else []) ++ digitChars d)) 64
  = let v := (if neg then - Z.of_N (Pos.of_uint d) else Z.of_N (Pos.of_uint d))%Z in
    if ((- 2 ^ 63 <=? v) && (v <? 2 ^ 63))%Z then Some v else None.
Proof.
  intros Hd. unfold json.ParseInt.
  rewrite list_ascii_of_string_of_list_ascii.
  pose proof (digitsValue_digitChars d 0) as Hv.
  rewrite Z.mul_0_l, Z.add_0_l in Hv.
  destruct neg; cbn [app].
  - destruct (digitChars d) as [|c cs] eqn:Hcs.
    { destruct d; discriminate. }
    rewrite Hv. reflexivity.
  - unfold digitChars in *.
    destruct d as [|d|d|d|d|d|d|d|d|d|d]; try discriminate Hd;
      cbn [DecimalString.NilEmpty.string_of_uint list_ascii_of_string] in *;
      rewrite Hv; reflexivity.
Qed.

Lemma FormatInt_pos (p : positive) :
  FormatInt (Z.pos p) = string_of_list_ascii ([] ++ digitChars (Pos.to_uint p)).
Proof.
  unfold FormatInt, digitChars. cbn [Z.to_int DecimalString.NilZero.string_of_int app].
  rewrite string_of_list_ascii_of_string.
  pose proof (to_uint_nonzeroHead p) as Hp.
  destruct (Pos.to_uint p); [discriminate Hp|reflexivity..].
Qed.

Lemma FormatInt_neg (p : positive) :
  FormatInt (Z.neg p)
  = string_of_list_ascii (["-"%char] ++ digitChars (Pos.to_uint p)).
Proof.
  unfold FormatInt, digitChars. cbn [Z.to_int DecimalString.NilZero.string_of_int app].
  cbn [string_of_list_ascii]. rewrite string_of_list_ascii_of_string.
  pose proof (to_uint_nonzeroHead p) as Hp.
  destruct (Pos.to_uint p); [discriminate Hp|reflexivity..].
Qed.

(** A JSON decoder reads the decimal form of an integer as the number with
    that literal, and [strconv.ParseInt] gives the integer back when an int64
    holds it. *)
Lemma FormatInt_decodes (n : Z) :
  json.parse (bytes (FormatInt n)) = Some (json.Number (FormatInt n))
  /\ json.ParseInt (FormatInt n) 64
     = if ((- 2 ^ 63 <=? n) && (n <? 2 ^ 63))%Z then Some n else None.
Proof.
  unfold json.parse, bytes. rewrite ascii_of_list_byte_of_string.
  destruct n as [|p|p].
  - split; reflexivity.
  - rewrite FormatInt_pos, list_ascii_of_string_of_list_ascii.
    rewrite (parse_decimal false _ (to_uint_nonzeroHead p)).
    rewrite (ParseInt_decimal false _ (to_uint_nonzeroHead p)).
    rewrite DecimalPos.Unsigned.of_to. split; reflexivity.
  - rewrite FormatInt_neg, list_ascii_of_string_of_list_ascii.
    rewrite (parse_decimal true _ (to_uint_nonzeroHead p)).
    rewrite (ParseInt_decimal true _ (to_uint_nonzeroHead p)).
    rewrite DecimalPos.Unsigned.of_to. split; reflexivity.
Qed.

(** X4. The block count is read back from its decimal form: on the payload
    that is the integer [n] written in decimal, the call returns [n] with no
    error when [n] fits an int64, and 0 with an [UnmarshalTypeError] when it
    does not. *)
Theorem X4_block_count_of_decimal (n : Z) :
  FutureGetBlockCountResult_Receive (delivered (bytes (FormatInt n)))
  = Return (if decide (- 2 ^ 63 <= n < 2 ^ 63)%Z
            then (n, None) else (0%Z, Some UnmarshalTypeError)).
Proof.
  destruct (FormatInt_decodes n) as [Hparse Hint].
  receive_unfold. unfold json.Unmarshal. rewrite Hparse.
  cbn [json.store json.int64_GoType json.int_GoType]. rewrite Hint.
  case_decide as Hn.
  - assert (((- 2 ^ 63 <=? n) && (n <? 2 ^ 63))%Z = true) as Hb.
    { apply andb_true_iff. split; [apply Z.leb_le | apply Z.ltb_lt]; lia. }
    rewrite Hb. unfold json.OverflowInt.
    change (64 - 1)%Z with 63%Z. rewrite Hb. reflexivity.
  - assert (((- 2 ^ 63 <=? n) && (n <? 2 ^ 63))%Z = false) as Hb.
    { apply andb_false_iff.
      destruct (Z.leb_spec (- 2 ^ 63) n); [right|left; reflexivity].
      apply Z.ltb_ge. lia. }
    rewrite Hb. reflexivity.
Qed.
